(** * careerHub.js: the REST store and the link-editing selection of the graph view

    A shallow embedding of [src/careerHub.js]: the JSON-file-backed store and
    the Express handlers that read and mutate it, and the click handler of the
    client's graph view.  Handlers are written in a small state monad over the
    server's state (the in-memory store, the data file and the console), so
    that each reads like the JavaScript it models. *)

From stdpp Require Import gmap strings list fin_maps pretty.
From Stdlib Require QArith Qminmax.

Set Warnings "-register-all".
Open Scope string_scope.
Open Scope list_scope.

(** ** JSON values

    What [JSON.parse] produces and [JSON.stringify] consumes.  Objects are
    finite maps from keys to values: key order is irrelevant to every handler.
    Numbers are modelled by integers; no handler computes with a number found
    in a request body, the only operation on one is the truthiness test of
    [||].  A property that is absent ([undefined] in JavaScript) is [None] at
    type [option json]. *)

Inductive json :=
| JNull
| JBool (b : bool)
| JNum (n : Z)
| JStr (s : string)
| JArr (l : list json)
| JObj (m : gmap string json).

(** [express.json()] in its default strict mode hands a handler an object or
    an array, never a bare primitive. *)
Inductive Body :=
| BodyObject (m : gmap string json)
| BodyArray (l : list json).

Definition bodyJson (b : Body) : json :=
  match b with
  | BodyObject m => JObj m
  | BodyArray l => JArr l
  end.

(** [req.body.k] for one of the keys the handlers destructure ([title],
    [content], [description], [status]): none of them is an array index or
    [length], so an array body has none of them. *)
Definition prop (b : Body) (k : string) : option json :=
  match b with
  | BodyObject m => m !! k
  | BodyArray _ => None
  end.

(** The enumerable own properties [Object.assign] copies from its source: the
    members of an object, the elements of an array under their indices. *)
Definition ownProps (b : Body) : gmap string json :=
  match b with
  | BodyObject m => m
  | BodyArray l => list_to_map (imap (λ i v, (pretty i, v)) l)
  end.

(** JavaScript truthiness, for the [||] defaults. *)
Definition truthy (v : option json) : bool :=
  match v with
  | None => false
  | Some JNull => false
  | Some (JBool b) => b
  | Some (JNum n) => negb (n =? 0)%Z
  | Some (JStr s) => negb (String.eqb s "")
  | Some (JArr _) => true
  | Some (JObj _) => true
  end.

(** [v || dflt], where [dflt] is a defined value. *)
Definition or_else (v : option json) (dflt : json) : json :=
  match v with
  | Some x => if truthy v then x else dflt
  | None => dflt
  end.

(** [v === s] for a string [s]: true only of a string value equal to [s]. *)
Definition as_string (v : option json) : option string :=
  match v with
  | Some (JStr s) => Some s
  | _ => None
  end.

(** ** The store *)

Record Version := {
  content : option json;
  timestamp : string
}.

Record Document := {
  docId : string;
  title : option json;
  versions : list Version;
  currentVersion : Z
}.

(** An issue is an open object: [Object.assign] may add or overwrite any
    member of it.  The store is given the shape its handlers maintain:
    [graphData] is whatever body was last posted, [documents] and [issues]
    are arrays of objects. *)
Record Store := {
  graphData : json;
  documents : list Document;
  issues : list (gmap string json)
}.

(** The data file [careerData.json]: absent, present but [readFileSync] or
    [JSON.parse] throws on it, or holding JSON text that parses to a value of
    the shape of a store. *)
Inductive DataFile :=
| Absent
| Unreadable
| Holds (s : Store).

Definition existsSync (f : DataFile) : bool :=
  match f with
  | Absent => false
  | Unreadable | Holds _ => true
  end.

(** [JSON.parse(fs.readFileSync(DATA_FILE, 'utf-8'))]; [None] when it throws. *)
Definition readParse (f : DataFile) : option Store :=
  match f with
  | Holds s => Some s
  | Absent | Unreadable => None
  end.

(** The three lines the store code writes to the console:
    [console.log('Loaded existing data from careerData.json')],
    [console.error('Error reading careerData.json, starting with empty data:', err)]
    and [console.log('Data saved to', DATA_FILE)]. *)
Inductive LogLine :=
| LoadedExistingData
| ErrorReadingData
| DataSaved.

Record Server := {
  store : Store;
  disk : DataFile;
  console : list LogLine
}.

Definition emptyGraph : json :=
  JObj (<["nodes" := JArr []]> (<["links" := JArr []]> ∅)).

(** The initial value of [store]. *)
Definition emptyStore : Store :=
  {| graphData := emptyGraph; documents := []; issues := [] |}.

(** Process start: the declaration of [store] followed by the guarded load. *)
Definition startup (f : DataFile) : Server :=
  if existsSync f then
    match readParse f with
    | Some parsed =>
        {| store := parsed; disk := f; console := [LoadedExistingData] |}
    | None =>
        {| store := emptyStore; disk := f; console := [ErrorReadingData] |}
    end
  else {| store := emptyStore; disk := f; console := [] |}.

(** ** Handlers *)

Record Response := {
  status : nat;
  payload : json
}.

Definition Handler (A : Type) : Type := Server → A * Server.

#[global] Instance handler_ret : MRet Handler := λ A a w, (a, w).
#[global] Instance handler_bind : MBind Handler :=
  λ A B f m w, let '(a, w') := m w in f a w'.

Definition getStore : Handler Store := λ w, (store w, w).

Definition setStore (s : Store) : Handler unit :=
  λ w, (tt, {| store := s; disk := disk w; console := console w |}).

(** [saveData()]: overwrite the file with the whole store, then log. *)
Definition saveData : Handler unit :=
  λ w, (tt, {| store := store w;
               disk := Holds (store w);
               console := console w ++ [DataSaved] |}).

(** [res.json(v)] and [res.status(404).json({ error: msg })]. *)
Definition res_json (v : json) : Handler Response :=
  mret {| status := 200; payload := v |}.

Definition not_found (msg : string) : Response :=
  {| status := 404; payload := JObj {[ "error" := JStr msg ]} |}.

Definition res_not_found (msg : string) : Handler Response :=
  mret (not_found msg).

Definition reply {A} (h : Handler A) (w : Server) : A := (h w).1.
Definition after {A} (h : Handler A) (w : Server) : Server := (h w).2.

(** *** Graph *)

Definition get_api_graph : Handler Response :=
  s ← getStore;
  res_json (graphData s).

Definition post_api_graph (body : Body) : Handler Response :=
  s ← getStore;
  setStore {| graphData := bodyJson body;
              documents := documents s;
              issues := issues s |};;
  saveData;;
  s' ← getStore;
  res_json (JObj (<["success" := JBool true]> {[ "graphData" := graphData s' ]})).

(** *** Documents *)

(** The two clock readings of a request: [Date.now()] and
    [new Date().toISOString()]. *)
Record Clock := {
  now : Z;
  isoString : string
}.

(** [JSON.stringify] leaves out a member whose value is [undefined]. *)
Definition member (k : string) (v : option json) (m : gmap string json)
  : gmap string json :=
  match v with
  | Some x => <[k := x]> m
  | None => m
  end.

Definition version_json (v : Version) : json :=
  JObj (member "content" (content v) {[ "timestamp" := JStr (timestamp v) ]}).

Definition document_json (d : Document) : json :=
  JObj (<["docId" := JStr (docId d)]>
       (member "title" (title d)
       (<["versions" := JArr (version_json <$> versions d)]>
        {[ "currentVersion" := JNum (currentVersion d) ]}))).

(** [d => d.docId === req.params.docId] *)
Definition has_docId (param : string) (d : Document) : Prop := docId d = param.

#[global] Instance has_docId_dec param d : Decision (has_docId param d) :=
  decide (docId d = param).

Definition get_api_documents : Handler Response :=
  s ← getStore;
  res_json (JArr (document_json <$> documents s)).

Definition get_api_documents_docId (param : string) : Handler Response :=
  s ← getStore;
  match list_find (has_docId param) (documents s) with
  | None => res_not_found "Document not found"
  | Some (_, doc) => res_json (document_json doc)
  end.

(** The version literal [{ content, timestamp: new Date().toISOString() }]. *)
Definition newVersion (clk : Clock) (body : Body) : Version :=
  {| content := prop body "content"; timestamp := isoString clk |}.

(** The [newDoc] literal of POST /api/documents. *)
Definition newDoc (clk : Clock) (body : Body) : Document :=
  {| docId := "doc_" +:+ pretty (now clk);
     title := prop body "title";
     versions := [ newVersion clk body ];
     currentVersion := 0 |}.

Definition post_api_documents (clk : Clock) (body : Body) : Handler Response :=
  s ← getStore;
  setStore {| graphData := graphData s;
              documents := documents s ++ [newDoc clk body];
              issues := issues s |};;
  saveData;;
  res_json (document_json (newDoc clk body)).

(** [doc.versions.push(...)] followed by
    [doc.currentVersion = doc.versions.length - 1], on one document. *)
Definition commit (clk : Clock) (body : Body) (doc : Document) : Document :=
  let pushed := versions doc ++ [ newVersion clk body ] in
  {| docId := docId doc;
     title := title doc;
     versions := pushed;
     currentVersion := Z.of_nat (length pushed) - 1 |}.

(** The document found is mutated in place: the array keeps it at its index. *)
Definition post_api_documents_docId_commit
    (param : string) (clk : Clock) (body : Body) : Handler Response :=
  s ← getStore;
  match list_find (has_docId param) (documents s) with
  | None => res_not_found "Document not found"
  | Some (i, doc) =>
      let doc' := commit clk body doc in
      setStore {| graphData := graphData s;
                  documents := <[i := doc']> (documents s);
                  issues := issues s |};;
      saveData;;
      res_json (document_json doc')
  end.

(** *** Issues *)

(** [i => i.issueId === issueId] *)
Definition has_issueId (issueId : string) (i : gmap string json) : Prop :=
  as_string (i !! "issueId") = Some issueId.

#[global] Instance has_issueId_dec issueId i : Decision (has_issueId issueId i) :=
  decide (as_string (i !! "issueId") = Some issueId).

(** [Object.assign(target, source)]: [target[k] = v] for every own member of
    the source, the source winning.  Writing to the key [__proto__] of an
    object that has no member of that name reaches the prototype setter and
    stores no member.  The prototype itself is not modelled: every issue the
    server creates owns the members the handlers read. *)
Definition assign (target : gmap string json) (source : Body)
  : gmap string json :=
  let members := ownProps source in
  (if decide (is_Some (target !! "__proto__")) then members
   else delete "__proto__" members) ∪ target.

(** [array.splice(index, count)] for an index within the array: the removed
    elements, and the array that remains. *)
Definition splice {A} (index count : nat) (l : list A) : list A * list A :=
  (take count (drop index l), take index l ++ drop (index + count) l).

Definition get_api_issues : Handler Response :=
  s ← getStore;
  res_json (JArr (JObj <$> issues s)).

(** The [newIssue] literal of POST /api/issues. *)
Definition newIssue (clk : Clock) (body : Body) : gmap string json :=
  <["issueId" := JStr ("issue_" +:+ pretty (now clk))]>
  (<["title" := or_else (prop body "title") (JStr "Untitled")]>
  (<["description" := or_else (prop body "description") (JStr "")]>
   {[ "status" := or_else (prop body "status") (JStr "todo") ]})).

Definition post_api_issues (clk : Clock) (body : Body) : Handler Response :=
  s ← getStore;
  setStore {| graphData := graphData s;
              documents := documents s;
              issues := issues s ++ [newIssue clk body] |};;
  saveData;;
  res_json (JObj (newIssue clk body)).

Definition put_api_issues_issueId (issueId : string) (body : Body)
  : Handler Response :=
  s ← getStore;
  match list_find (has_issueId issueId) (issues s) with
  | None => res_not_found "Issue not found"
  | Some (k, issue) =>
      let issue' := assign issue body in
      setStore {| graphData := graphData s;
                  documents := documents s;
                  issues := <[k := issue']> (issues s) |};;
      saveData;;
      res_json (JObj issue')
  end.

Definition delete_api_issues_issueId (issueId : string) : Handler Response :=
  s ← getStore;
  match list_find (has_issueId issueId) (issues s) with
  | None => res_not_found "Issue not found"
  | Some (index, _) =>
      let '(removed, rest) := splice index 1 (issues s) in
      setStore {| graphData := graphData s;
                  documents := documents s;
                  issues := rest |};;
      saveData;;
      res_json (JObj (<["success" := JBool true]>
                      {[ "removed" := JArr (JObj <$> removed) ]}))
  end.

(** A run of commits on one document id, oldest request first. *)
Fixpoint commits (param : string) (reqs : list (Clock * Body)) (w : Server)
  : Server :=
  match reqs with
  | [] => w
  | (clk, body) :: reqs' =>
      commits param reqs' (after (post_api_documents_docId_commit param clk body) w)
  end.

(** *** The routes *)

Inductive Request :=
| GetGraph
| PostGraph (body : Body)
| GetDocuments
| GetDocument (docId : string)
| PostDocument (clk : Clock) (body : Body)
| PostCommit (docId : string) (clk : Clock) (body : Body)
| GetIssues
| PostIssue (clk : Clock) (body : Body)
| PutIssue (issueId : string) (body : Body)
| DeleteIssue (issueId : string).

Definition handle (r : Request) : Handler Response :=
  match r with
  | GetGraph => get_api_graph
  | PostGraph body => post_api_graph body
  | GetDocuments => get_api_documents
  | GetDocument param => get_api_documents_docId param
  | PostDocument clk body => post_api_documents clk body
  | PostCommit param clk body => post_api_documents_docId_commit param clk body
  | GetIssues => get_api_issues
  | PostIssue clk body => post_api_issues clk body
  | PutIssue issueId body => put_api_issues_issueId issueId body
  | DeleteIssue issueId => delete_api_issues_issueId issueId
  end.

(** The invariant of the data model: [currentVersion] points at the newest
    of at least one version. *)
Definition well_versioned (d : Document) : Prop :=
  versions d ≠ [] ∧ currentVersion d = (Z.of_nat (length (versions d)) - 1)%Z.

(** Requests are handled one at a time, each handler running to its end. *)
Fixpoint serve (rs : list Request) (w : Server) : Server :=
  match rs with
  | [] => w
  | r :: rs' => serve rs' (after (handle r) w)
  end.

(** The four members of the [newIssue] literal. *)
Definition has_members (i : gmap string json) : Prop :=
  is_Some (i !! "issueId") ∧ is_Some (i !! "title")
  ∧ is_Some (i !! "description") ∧ is_Some (i !! "status").

(** ** The graph view of the page

    The data the click handler of [updateGraph] works on: the client's
    [graph] and [selectedNode]. *)

Module Client.

Record Node := {
  id : string;
  name : string;
  color : option string
}.

(** An end of a link is a node object, or still the id string written by
    [graph.links.push({ source: selectedNode.id, target: d.id })].  (A graph
    whose load failed on a link naming no node is not a state of this view.) *)
Inductive End :=
| Obj (n : Node)
| Str (s : string).

(** Links are objects compared by identity ([l !== existing]): [addr] is the
    identity of the object, the other two fields are its members. *)
Record Link := {
  addr : nat;
  source : End;
  target : End
}.

Record Graph := {
  nodes : list Node;
  links : list Link
}.

Record View := {
  graph : Graph;
  selectedNode : option Node
}.

(** [e.id]: a string has no such member. *)
Definition end_id (e : End) : option string :=
  match e with
  | Obj n => Some (id n)
  | Str _ => None
  end.

(** The id an end stands for, before and after d3 replaced it by the node. *)
Definition end_key (e : End) : string :=
  match e with
  | Obj n => id n
  | Str s => s
  end.

(** The identity of a link and the two ids [saveGraph] sends for it
    ([typeof l.source === 'object' ? l.source.id : l.source]). *)
Definition link_key (l : Link) : nat * string * string :=
  (addr l, end_key (source l), end_key (target l)).

(** The predicate of [graph.links.find] in the click handler. *)
Definition joins (sel d : Node) (l : Link) : Prop :=
  (end_id (source l) = Some (id sel) ∧ end_id (target l) = Some (id d)) ∨
  (end_id (source l) = Some (id d) ∧ end_id (target l) = Some (id sel)).

#[global] Instance joins_dec sel d l : Decision (joins sel d l) :=
  decide ((end_id (source l) = Some (id sel) ∧ end_id (target l) = Some (id d)) ∨
          (end_id (source l) = Some (id d) ∧ end_id (target l) = Some (id sel))).

(** The identity of a freshly allocated link object. *)
Definition fresh (ls : list Link) : nat := S (max_list (addr <$> ls)).

(** [simulation.force('link').links(graph.links)] at the end of
    [updateGraph]: d3-force (7.8.5, loaded by the page) indexes the nodes by
    id, a later node replacing an earlier one of the same id, and walks the
    links in order replacing each end that is not an object by the node of
    that id; it throws at the first id without a node, leaving the links
    after that point as they were. *)
Definition nodeById (ns : list Node) : gmap string Node :=
  foldl (λ m n, <[id n := n]> m) ∅ ns.

Definition resolve (byId : gmap string Node) (e : End) : option End :=
  match e with
  | Obj n => Some (Obj n)
  | Str s => Obj <$> byId !! s
  end.

Fixpoint initialize (byId : gmap string Node) (ls : list Link) : list Link :=
  match ls with
  | [] => []
  | l :: rest =>
      match resolve byId (source l) with
      | None => l :: rest
      | Some s =>
          match resolve byId (target l) with
          | None => {| addr := addr l; source := s; target := target l |} :: rest
          | Some t =>
              {| addr := addr l; source := s; target := t |} :: initialize byId rest
          end
      end
  end.

(** What [updateGraph()] does to the data: the nodes and the selection stay,
    the links go through d3's initialisation. *)
Definition updateGraph (v : View) : View :=
  {| graph := {| nodes := nodes (graph v);
                 links := initialize (nodeById (nodes (graph v)))
                                     (links (graph v)) |};
     selectedNode := selectedNode v |}.

(** The ['click'] handler of a node [d]. *)
Definition onClick (shiftKey : bool) (d : Node) (v : View) : View :=
  if shiftKey then
    match selectedNode v with
    | None => {| graph := graph v; selectedNode := Some d |}
    | Some sel =>
        if decide (id sel = id d) then
          {| graph := graph v; selectedNode := None |}
        else
          let ls := links (graph v) in
          let ls' :=
            match list_find (joins sel d) ls with
            | Some (_, existing) => filter (λ l, addr l ≠ addr existing) ls
            | None =>
                ls ++ [ {| addr := fresh ls;
                           source := Str (id sel);
                           target := Str (id d) |} ]
            end in
          updateGraph {| graph := {| nodes := nodes (graph v); links := ls' |};
                         selectedNode := None |}
    end
  else v.

(** Links whose ends are node objects, as [updateGraph] leaves them. *)
Definition resolved (l : Link) : Prop :=
  is_Some (end_id (source l)) ∧ is_Some (end_id (target l)).


(** The ['dblclick'] handler of a node [d]; [confirmed] is the answer to
    [confirm].  The selection is not touched. *)
Definition onDblClick (confirmed : bool) (d : Node) (v : View) : View :=
  if confirmed then
    updateGraph
      {| graph :=
           {| nodes := filter (λ n, id n ≠ id d) (nodes (graph v));
              links := filter (λ l, end_id (source l) ≠ Some (id d)
                                    ∧ end_id (target l) ≠ Some (id d))
                              (links (graph v)) |};
         selectedNode := selectedNode v |}
  else v.

(** [!nodeName] for the answer of [prompt]: [null] when cancelled, or the
    text entered. *)
Definition no_text (answer : option string) : bool :=
  match answer with
  | None => true
  | Some s => bool_decide (s = "")
  end.

(** The handler of the add-node button; [millis] is [Date.now()]. *)
Definition addNode (nodeName : option string) (millis : Z) (v : View) : View :=
  match nodeName with
  | Some nm =>
      if no_text nodeName then v
      else
        updateGraph
          {| graph := {| nodes := nodes (graph v)
                                  ++ [ {| id := "n" +:+ pretty millis;
                                          name := nm;
                                          color := None |} ];
                         links := links (graph v) |};
             selectedNode := selectedNode v |}
  | None => v
  end.

(** The handler of the add-colored-node button:
    [prompt(...) || '#2ecc71'] for the colour. *)
Definition addColoredNode (nodeName answer : option string) (millis : Z)
    (v : View) : View :=
  match nodeName with
  | Some nm =>
      if no_text nodeName then v
      else
        let color :=
          match answer with
          | Some c => if no_text answer then "#2ecc71" else c
          | None => "#2ecc71"
          end in
        updateGraph
          {| graph := {| nodes := nodes (graph v)
                                  ++ [ {| id := "n" +:+ pretty millis;
                                          name := nm;
                                          color := Some color |} ];
                         links := links (graph v) |};
             selectedNode := selectedNode v |}
  | None => v
  end.






(** A graph without broken edges: both ends of every link are node objects
    whose ids are ids of nodes of the graph. *)
Definition closed (g : Graph) : Prop :=
  Forall (λ l, ∃ s t, source l = Obj s ∧ target l = Obj t
                      ∧ id s ∈ (id <$> nodes g) ∧ id t ∈ (id <$> nodes g))
         (links g).

End Client.

(** ** Dragging a node *)

Module Drag.
Import QArith Qminmax.

(** [Math.max(r, Math.min(size - r, x))] of [dragged] and [ticked], with
    [r = 18].  A coordinate is a finite double, that is a rational, and
    [Math.max] and [Math.min] return one of their arguments as it is. *)
Definition r : Q := 18.

Definition clamp (size : Z) (x : Q) : Q :=
  Qmax r (Qmin (inject_Z size - r) x).

(** The position [dragged] gives the node ([d.x], [d.y] and the pinned
    [d.fx], [d.fy]) for the pointer at [(ex, ey)]. *)
Definition dragged (containerWidth containerHeight : Z) (ex ey : Q) : Q * Q :=
  (clamp containerWidth ex, clamp containerHeight ey).

End Drag.

(** ** The kanban board of the page *)

Module Kanban.

(** The cards of the three lists, top card first; a card stands for the
    issue it was made from. *)
Record Board := {
  todo_list : list (gmap string json);
  inprogress_list : list (gmap string json);
  done_list : list (gmap string json)
}.

(** [issue.status === s] *)
Definition status_is (s : string) (issue : gmap string json) : Prop :=
  as_string (issue !! "status") = Some s.

#[global] Instance status_is_dec s issue : Decision (status_is s issue) :=
  decide (as_string (issue !! "status") = Some s).

(** The body of the [forEach] of [renderIssues]: the card goes to the list
    its status names, and to the done list when it names none. *)
Definition appendCard (b : Board) (issue : gmap string json) : Board :=
  if decide (status_is "todo" issue) then
    {| todo_list := todo_list b ++ [issue];
       inprogress_list := inprogress_list b;
       done_list := done_list b |}
  else if decide (status_is "in-progress" issue) then
    {| todo_list := todo_list b;
       inprogress_list := inprogress_list b ++ [issue];
       done_list := done_list b |}
  else
    {| todo_list := todo_list b;
       inprogress_list := inprogress_list b;
       done_list := done_list b ++ [issue] |}.

Definition renderIssues (issueArray : list (gmap string json)) : Board :=
  foldl appendCard {| todo_list := []; inprogress_list := []; done_list := [] |}
        issueArray.

(** The three numbers [updateIssueCounters] writes into the column headers. *)
Record Counters := {
  todo_counter : nat;
  inprogress_counter : nat;
  done_counter : nat
}.

Definition updateIssueCounters (issueArray : list (gmap string json)) : Counters :=
  {| todo_counter := length (filter (status_is "todo") issueArray);
     inprogress_counter := length (filter (status_is "in-progress") issueArray);
     done_counter := length (filter (status_is "done") issueArray) |}.

(** The array of objects a reply of GET /api/issues carries; the server
    sends nothing but an array of objects. *)
Definition issueObjects (v : json) : list (gmap string json) :=
  match v with
  | JArr l => omap (λ x, match x with JObj m => Some m | _ => None end) l
  | _ => []
  end.

(** [loadIssues]: fetch the list, render it, count it. *)
Definition loadIssues : Handler (Board * Counters) :=
  res ← get_api_issues;
  mret (renderIssues (issueObjects (payload res)),
        updateIssueCounters (issueObjects (payload res))).

(** [kanbanDrop]: the column's [data-status] and the id carried by the drag
    go into a PUT, whatever it answers the list is loaded again.  The id
    travels as a segment of the URL. *)
Definition kanbanDrop (newStatus issueId : string) : Handler (Board * Counters) :=
  put_api_issues_issueId issueId (BodyObject {[ "status" := JStr newStatus ]});;
  loadIssues.

(** [createIssuePrompt(defaultStatus)], with the answers of its two prompts
    ([null] when cancelled): nothing is sent without a title; a cancelled
    description is sent as [null]. *)
Definition createIssuePrompt (defaultStatus : string)
    (title description : option string) (clk : Clock)
  : Handler (option (Board * Counters)) :=
  match title with
  | Some t =>
      if Client.no_text title then mret None
      else
        post_api_issues clk
          (BodyObject (<["title" := JStr t]>
                      (<["description" := match description with
                                          | Some d => JStr d
                                          | None => JNull
                                          end]>
                       {[ "status" := JStr defaultStatus ]})));;
        shown ← loadIssues;
        mret (Some shown)
  | None => mret None
  end.

(** [deleteIssue]: after [confirm], DELETE; the list is loaded again only
    when the reply has a truthy [success] ([None]: the board is left as it
    is shown). *)
Definition deleteIssue (confirmed : bool) (issueId : string)
  : Handler (option (Board * Counters)) :=
  if confirmed then
    result ← delete_api_issues_issueId issueId;
    if truthy (match payload result with
               | JObj m => m !! "success"
               | _ => None
               end)
    then shown ← loadIssues; mret (Some shown)
    else mret None
  else mret None.

End Kanban.

(** ** The document editor of the page *)

Module Editor.

(** [doc.versions[doc.currentVersion]] on the document of a reply. *)
Definition versionAt (doc : Document) : option Version :=
  if (0 <=? currentVersion doc)%Z
  then versions doc !! Z.to_nat (currentVersion doc)
  else None.

(** What the change handler of the document picker assigns to
    [editor.value]: [v ? v.content : ''] ([None] is [undefined]). *)
Definition editorValue (doc : Document) : option json :=
  match versionAt doc with
  | Some v => content v
  | None => Some (JStr "")
  end.

End Editor.

(** ** Sample requests and states *)

Definition noon : Clock :=
  {| now := 1700000000000; isoString := "2023-11-14T22:13:20.000Z" |}.

Definition later : Clock :=
  {| now := 1700000000001; isoString := "2023-11-14T22:13:20.001Z" |}.

Definition twoNodes : Body :=
  BodyObject
    (<["nodes" := JArr [ JObj {[ "id" := JStr "n1" ]};
                         JObj {[ "id" := JStr "n2" ]} ]]>
     {[ "links" := JArr [ JObj (<["source" := JStr "n1"]>
                                {[ "target" := JStr "n2" ]}) ] ]}).

Definition note (t c : string) : Body :=
  BodyObject (<["title" := JStr t]> {[ "content" := JStr c ]}).

Definition text (c : string) : Body := BodyObject {[ "content" := JStr c ]}.

Definition fix_bug : Body :=
  BodyObject (<["title" := JStr "Fix bug"]> {[ "status" := JStr "todo" ]}).

(** A server started without a data file. *)
Definition fresh_server : Server := startup Absent.

(** The same server holding one document. *)
Definition one_note : Server :=
  after (post_api_documents noon (note "Plan" "draft")) fresh_server.

(** One issue created from an empty body. *)
Definition one_todo : Server :=
  after (post_api_issues noon (BodyObject ∅)) fresh_server.

(** Two issues created from an empty body in the same millisecond. *)
Definition two_todos : Server :=
  after (post_api_issues noon (BodyObject ∅)) one_todo.

(** A view of two linked nodes, the first of them selected. *)
Definition node_a : Client.Node :=
  {| Client.id := "n1"; Client.name := "School"; Client.color := None |}.
Definition node_b : Client.Node :=
  {| Client.id := "n2"; Client.name := "First job"; Client.color := Some "blue" |}.

Definition pending_view : Client.View :=
  {| Client.graph :=
       {| Client.nodes := [node_a; node_b];
          Client.links := [ {| Client.addr := 1;
                               Client.source := Client.Obj node_a;
                               Client.target := Client.Obj node_b |} ] |};
     Client.selectedNode := Some node_a |}.

(** The same two nodes, not linked, nothing selected. *)
Definition unlinked_view : Client.View :=
  {| Client.graph := {| Client.nodes := [node_a; node_b]; Client.links := [] |};
     Client.selectedNode := None |}.

(** ** Properties of the handlers *)

Ltac run :=
  cbv [reply after get_api_graph post_api_graph get_api_documents
       get_api_documents_docId post_api_documents
       post_api_documents_docId_commit get_api_issues post_api_issues
       put_api_issues_issueId delete_api_issues_issueId
       res_json res_not_found saveData setStore getStore
       mbind handler_bind mret handler_ret];
  cbn [fst snd store disk console graphData documents issues].

(** Every request either leaves the server as it was or ends with the whole
    store written to the data file. *)
Lemma handled_is_saved (r : Request) (w : Server) :
  after (handle r) w = w
  ∨ disk (after (handle r) w) = Holds (store (after (handle r) w)).
Proof.
  destruct r; cbn [handle]; run; try (by left); try (by right).
  - destruct (list_find _ _) as [[i d]|]; by left.
  - destruct (list_find _ _) as [[i d]|]; [by right | by left].
  - destruct (list_find _ _) as [[i d]|]; [by right | by left].
  - destruct (list_find _ _) as [[i d]|]; [by right | by left].
Qed.

(** Every request keeps the documents well versioned. *)
Lemma handled_well_versioned (r : Request) (w : Server) :
  Forall well_versioned (documents (store w)) →
  Forall well_versioned (documents (store (after (handle r) w))).
Proof.
  intros Hinv. destruct r; cbn [handle]; run; try done.
  - destruct (list_find _ _) as [[i d]|]; done.
  - apply Forall_app. split; [done|]. by apply Forall_singleton.
  - destruct (list_find _ _) as [[i d]|]; [|done]. cbn [fst snd store documents].
    apply Forall_insert; [done|]. split; cbn [commit versions currentVersion].
    + intros [_ [=]]%app_eq_nil.
    + done.
  - destruct (list_find _ _) as [[i d]|]; done.
  - destruct (list_find _ _) as [[i d]|]; done.
Qed.

(** A restart after [saveData] loads the store that was saved. *)
Lemma saved_store_reloads (w : Server) :
  store (startup (disk (after saveData w))) = store w.
Proof. done. Qed.

(** C1. Posting a body to /api/graph and then reading /api/graph returns that
    very body with status 200: the stored graph is the body, unvalidated and
    untransformed, whatever the store held before; the documents and the
    issues are untouched and the new store is what the data file holds. *)
Theorem post_graph_get_roundtrip (w : Server) (body : Body) :
  reply get_api_graph (after (post_api_graph body) w)
    = {| status := 200; payload := bodyJson body |}
  ∧ graphData (store (after (post_api_graph body) w)) = bodyJson body
  ∧ documents (store (after (post_api_graph body) w)) = documents (store w)
  ∧ issues (store (after (post_api_graph body) w)) = issues (store w)
  ∧ disk (after (post_api_graph body) w)
    = Holds (store (after (post_api_graph body) w)).
Proof. by run. Qed.

Example two_nodes_roundtrip :
  payload (reply get_api_graph (after (post_api_graph twoNodes) fresh_server))
    = bodyJson twoNodes.
Proof. reflexivity. Qed.

(** The reply to POST /api/graph on an empty store is not the value GET
    /api/graph then returns. *)
Lemma saved_reply_is_a_wrapper :
  reply (post_api_graph twoNodes) fresh_server
    ≠ reply get_api_graph (after (post_api_graph twoNodes) fresh_server).
Proof.
  intros H.
  apply (f_equal (λ r, match payload r with
                       | JObj m => m !! "success"
                       | _ => None
                       end)) in H.
  vm_compute in H. discriminate H.
Qed.

(** C2, amended. The reply to POST /api/graph has status 200 and is the
    object with the two members [success: true] and [graphData], the latter
    being the stored value, which a following GET /api/graph returns. *)
Theorem post_graph_reply_wraps (w : Server) (body : Body) :
  reply (post_api_graph body) w
    = {| status := 200;
         payload :=
           JObj (<["success" := JBool true]>
                 {[ "graphData" :=
                      graphData (store (after (post_api_graph body) w)) ]}) |}
  ∧ reply get_api_graph (after (post_api_graph body) w)
    = {| status := 200;
         payload := graphData (store (after (post_api_graph body) w)) |}
  ∧ graphData (store (after (post_api_graph body) w)) = bodyJson body.
Proof. by run. Qed.

(** *** Commits *)

Lemma commit_found (w : Server) param clk body i d :
  list_find (has_docId param) (documents (store w)) = Some (i, d) →
  post_api_documents_docId_commit param clk body w =
    ({| status := 200; payload := document_json (commit clk body d) |},
     let s' := {| graphData := graphData (store w);
                  documents := <[i := commit clk body d]> (documents (store w));
                  issues := issues (store w) |} in
     {| store := s'; disk := Holds s'; console := console w ++ [DataSaved] |}).
Proof. intros Hfind. run. by rewrite Hfind. Qed.

Lemma commit_missing (w : Server) param clk body :
  list_find (has_docId param) (documents (store w)) = None →
  post_api_documents_docId_commit param clk body w =
    (not_found "Document not found", w).
Proof. intros Hfind. run. by rewrite Hfind. Qed.

(** Replacing the document found by one of the same id keeps it the one found. *)
Lemma find_replaced param (docs : list Document) i d d' :
  list_find (has_docId param) docs = Some (i, d) →
  docId d' = docId d →
  list_find (has_docId param) (<[i := d']> docs) = Some (i, d').
Proof.
  intros (Hi & Hd & Hleast)%list_find_Some Hid.
  apply list_find_insert_Some. right; left.
  split_and!; [done | done | by eapply lookup_lt_Some | | done].
  unfold has_docId in *. congruence.
Qed.

Lemma commits_found (reqs : list (Clock * Body)) :
  ∀ (w : Server) param i d,
  list_find (has_docId param) (documents (store w)) = Some (i, d) →
  ∃ d',
    documents (store (commits param reqs w)) = <[i := d']> (documents (store w))
    ∧ list_find (has_docId param) (documents (store (commits param reqs w))) = Some (i, d')
    ∧ versions d' = versions d ++ (uncurry newVersion <$> reqs)
    ∧ (reqs ≠ [] ∨ currentVersion d = (Z.of_nat (length (versions d)) - 1)%Z →
       currentVersion d' = (Z.of_nat (length (versions d')) - 1)%Z)
    ∧ docId d' = docId d ∧ title d' = title d.
Proof.
  induction reqs as [|[clk body] reqs IH]; intros w param i d Hfind.
  - exists d. simpl. split_and!; try done.
    + symmetry. apply list_insert_id.
      by apply list_find_Some in Hfind as (? & _).
    + by rewrite app_nil_r.
    + intros [? | ?]; done.
  - simpl. unfold after. rewrite (commit_found _ _ _ _ _ _ Hfind). simpl.
    set (d1 := commit clk body d).
    set (w1 := {| store := _ |}).
    destruct (IH w1 param i d1) as (d' & Hdocs & Hfind' & Hvs & Hcur & Hid & Htitle).
    { subst w1. simpl. by eapply find_replaced. }
    exists d'. subst w1. simpl in *.
    split_and!; try done.
    + by rewrite Hdocs, list_insert_insert_eq.
    + by rewrite Hvs, <- app_assoc.
    + intros _. apply Hcur. by right.
Qed.

Lemma create_document (w : Server) clk body :
  post_api_documents clk body w =
    ({| status := 200; payload := document_json (newDoc clk body) |},
     let s' := {| graphData := graphData (store w);
                  documents := documents (store w) ++ [newDoc clk body];
                  issues := issues (store w) |} in
     {| store := s'; disk := Holds s'; console := console w ++ [DataSaved] |}).
Proof. by run. Qed.

(** A document appended under an id no stored document has is the one found
    under that id. *)
Lemma find_appended (docs : list Document) (d : Document) :
  list_find (has_docId (docId d)) docs = None →
  list_find (has_docId (docId d)) (docs ++ [d]) = Some (length docs, d).
Proof.
  intros Hnone. rewrite list_find_app_r by done. simpl.
  by rewrite decide_True.
Qed.

(** C3. Commits addressed to the id of a stored document [d] (the document
    the handler finds under that id) append one version each, in request
    order, to the versions [d] had: after [n] commits there are [n] more,
    none removed or reordered, [currentVersion] is the index of the last
    one, and every other document is as it was; the reply to a commit is the
    document with the submitted content appended.  A freshly created
    document therefore has [n + 1] versions and [currentVersion = n].
    When no document has the id, the reply is 404 with
    [{error: "Document not found"}] and nothing changes. *)
Theorem commits_append_versions
    (w : Server) (param : string) (reqs : list (Clock * Body)) :
  (∀ i d,
     list_find (has_docId param) (documents (store w)) = Some (i, d) →
     ∃ d',
       list_find (has_docId param) (documents (store (commits param reqs w)))
         = Some (i, d')
       ∧ documents (store (commits param reqs w)) = <[i := d']> (documents (store w))
       ∧ versions d' = versions d ++ (uncurry newVersion <$> reqs)
       ∧ length (versions d') = length (versions d) + length reqs
       ∧ (reqs ≠ [] ∨ currentVersion d = (Z.of_nat (length (versions d)) - 1)%Z →
          currentVersion d' = (Z.of_nat (length (versions d')) - 1)%Z)
       ∧ ∀ clk body,
           reply (post_api_documents_docId_commit param clk body) w
             = {| status := 200; payload := document_json (commit clk body d) |}
           ∧ versions (commit clk body d) = versions d ++ [newVersion clk body])
  ∧ (list_find (has_docId param) (documents (store w)) = None →
     ∀ clk body,
       post_api_documents_docId_commit param clk body w
         = ({| status := 404;
               payload := JObj {[ "error" := JStr "Document not found" ]} |}, w))
  ∧ (∀ clk0 body0,
       param = docId (newDoc clk0 body0) →
       list_find (has_docId param) (documents (store w)) = None →
       ∃ d',
         list_find (has_docId param)
           (documents (store (commits param reqs (after (post_api_documents clk0 body0) w))))
           = Some (length (documents (store w)), d')
         ∧ length (versions d') = length reqs + 1
         ∧ currentVersion d' = Z.of_nat (length reqs)).
Proof.
  split_and!.
  - intros i d Hfind.
    destruct (commits_found reqs w param i d Hfind)
      as (d' & Hdocs & Hfind' & Hvs & Hcur & _).
    exists d'. split_and!; try done.
    + by rewrite Hvs, length_app, length_fmap.
    + intros clk body. unfold reply.
      by rewrite (commit_found _ _ _ _ _ _ Hfind).
  - intros Hnone clk body. by apply commit_missing.
  - intros clk0 body0 -> Hnone.
    unfold after at 1. rewrite create_document. cbn [snd].
    set (w1 := {| store := _ |}).
    destruct (commits_found reqs w1 (docId (newDoc clk0 body0))
                (length (documents (store w))) (newDoc clk0 body0))
      as (d' & _ & Hfind' & Hvs & Hcur & _).
    { subst w1. cbn [store documents]. by apply find_appended. }
    exists d'. split; [done|].
    assert (length (versions d') = length reqs + 1) as Hlen.
    { rewrite Hvs, length_app, length_fmap. simpl. lia. }
    split; [done|]. rewrite Hcur by (by right). lia.
Qed.

Lemma commits_append_versions_witness :
  (list_find (has_docId "doc_1700000000000") (documents (store one_note))
     = Some (0, newDoc noon (note "Plan" "draft"))
   ∧ ∃ d',
       list_find (has_docId "doc_1700000000000")
         (documents (store (commits "doc_1700000000000"
                              [(later, text "second"); (later, text "third")] one_note)))
         = Some (0, d')
       ∧ length (versions d') = 3)
  ∧ (list_find (has_docId "doc_1700000000000") (documents (store fresh_server)) = None
     ∧ post_api_documents_docId_commit "doc_1700000000000" later (text "second")
         fresh_server
       = (not_found "Document not found", fresh_server)
     ∧ ∃ d',
         list_find (has_docId "doc_1700000000000")
           (documents (store (commits "doc_1700000000000"
                                [(later, text "second"); (later, text "third")]
                                (after (post_api_documents noon (note "Plan" "draft"))
                                   fresh_server))))
           = Some (0, d')
         ∧ currentVersion d' = 2%Z).
Proof.
  assert (list_find (has_docId "doc_1700000000000") (documents (store one_note))
          = Some (0, newDoc noon (note "Plan" "draft"))) as Hfound
    by (vm_compute; reflexivity).
  assert (list_find (has_docId "doc_1700000000000") (documents (store fresh_server))
          = None) as Hnone by reflexivity.
  split; [split; [exact Hfound|] | split; [exact Hnone | split]].
  - destruct (proj1 (commits_append_versions one_note "doc_1700000000000"
                       [(later, text "second"); (later, text "third")])
                0 (newDoc noon (note "Plan" "draft")) Hfound)
      as (d' & Hfind & _ & _ & Hlen & _).
    exists d'. split; [exact Hfind | exact Hlen].
  - exact (proj1 (proj2 (commits_append_versions fresh_server "doc_1700000000000" []))
             Hnone later (text "second")).
  - destruct (proj2 (proj2 (commits_append_versions fresh_server "doc_1700000000000"
                              [(later, text "second"); (later, text "third")]))
                noon (note "Plan" "draft") eq_refl Hnone)
      as (d' & Hfind & _ & Hcur).
    exists d'. split; [exact Hfind | exact Hcur].
Defined.

(** *** Creating a document *)

(** Two documents created in the same millisecond share their id, and the
    id then fetches the earlier one. *)
Lemma same_ms_document_shadowed :
  reply (get_api_documents_docId "doc_1700000000000")
        (after (post_api_documents noon (note "Log" "entry")) one_note)
    ≠ reply (post_api_documents noon (note "Log" "entry")) one_note.
Proof.
  intros H.
  apply (f_equal (λ r, match payload r with
                       | JObj m => as_string (m !! "title")
                       | _ => None
                       end)) in H.
  vm_compute in H. discriminate H.
Qed.

(** C4, amended. POST /api/documents replies 200 with the created document:
    its id is "doc_" followed by the epoch milliseconds, it has the one
    version holding the submitted content, and [currentVersion] is 0; the
    document is appended to the stored ones.  GET /api/documents/:docId with
    that id returns the same document when no document stored before has
    the id; when one has, GET returns that earlier document. *)
Theorem created_document (w : Server) (clk : Clock) (body : Body) :
  let d := newDoc clk body in
  let w' := after (post_api_documents clk body) w in
  reply (post_api_documents clk body) w
    = {| status := 200; payload := document_json d |}
  ∧ docId d = "doc_" +:+ pretty (now clk)
  ∧ title d = prop body "title"
  ∧ versions d = [ {| content := prop body "content"; timestamp := isoString clk |} ]
  ∧ currentVersion d = 0%Z
  ∧ documents (store w') = documents (store w) ++ [d]
  ∧ (list_find (has_docId (docId d)) (documents (store w)) = None →
     reply (get_api_documents_docId (docId d)) w'
       = {| status := 200; payload := document_json d |})
  ∧ (∀ i d0,
       list_find (has_docId (docId d)) (documents (store w)) = Some (i, d0) →
       reply (get_api_documents_docId (docId d)) w'
         = {| status := 200; payload := document_json d0 |}).
Proof.
  intros d w'. subst d w'. unfold after, reply. rewrite create_document.
  cbn [fst snd]. split_and!; try done.
  - intros Hnone. run. by rewrite (find_appended _ _ Hnone).
  - intros i d0 Hfind. run.
    by rewrite (list_find_app_l _ _ [newDoc clk body] _ _ Hfind).
Qed.

Lemma created_document_witness :
  list_find (has_docId (docId (newDoc noon (note "Plan" "draft"))))
    (documents (store fresh_server)) = None
  ∧ reply (get_api_documents_docId "doc_1700000000000")
          (after (post_api_documents noon (note "Plan" "draft")) fresh_server)
    = {| status := 200;
         payload := document_json (newDoc noon (note "Plan" "draft")) |}.
Proof.
  assert (list_find (has_docId (docId (newDoc noon (note "Plan" "draft"))))
            (documents (store fresh_server)) = None) as Hnone by reflexivity.
  split; [exact Hnone|].
  exact (proj1 (proj2 (proj2 (proj2 (proj2 (proj2 (proj2
           (created_document fresh_server noon (note "Plan" "draft")))))))) Hnone).
Defined.

(** *** Creating an issue *)

Lemma create_issue (w : Server) clk body :
  post_api_issues clk body w =
    ({| status := 200; payload := JObj (newIssue clk body) |},
     let s' := {| graphData := graphData (store w);
                  documents := documents (store w);
                  issues := issues (store w) ++ [newIssue clk body] |} in
     {| store := s'; disk := Holds s'; console := console w ++ [DataSaved] |}).
Proof. by run. Qed.

Lemma or_else_absent dflt : or_else None dflt = dflt.
Proof. done. Qed.

Lemma or_else_truthy v dflt : truthy (Some v) = true → or_else (Some v) dflt = v.
Proof. unfold or_else. by intros ->. Qed.

Lemma or_else_falsy v dflt : truthy (Some v) = false → or_else (Some v) dflt = dflt.
Proof. unfold or_else. by intros ->. Qed.

Lemma newIssue_lookup clk body :
  newIssue clk body !! "issueId" = Some (JStr ("issue_" +:+ pretty (now clk)))
  ∧ newIssue clk body !! "title"
      = Some (or_else (prop body "title") (JStr "Untitled"))
  ∧ newIssue clk body !! "description"
      = Some (or_else (prop body "description") (JStr ""))
  ∧ newIssue clk body !! "status"
      = Some (or_else (prop body "status") (JStr "todo")).
Proof.
  unfold newIssue. split_and!.
  - by rewrite lookup_insert_eq.
  - rewrite lookup_insert_ne by done. by rewrite lookup_insert_eq.
  - do 2 (rewrite lookup_insert_ne by done). by rewrite lookup_insert_eq.
  - do 3 (rewrite lookup_insert_ne by done). by rewrite lookup_singleton_eq.
Qed.

(** A title given as the empty string is replaced by "Untitled"; and of two
    issues created from the same body in the same millisecond the list
    holds two equal copies. *)
Lemma falsy_title_replaced :
  (prop (BodyObject {[ "title" := JStr "" ]}) "title" = Some (JStr "")
   ∧ newIssue noon (BodyObject {[ "title" := JStr "" ]}) !! "title"
       = Some (JStr "Untitled")
   ∧ reply (post_api_issues noon (BodyObject {[ "title" := JStr "" ]})) fresh_server
       = {| status := 200;
            payload := JObj (newIssue noon (BodyObject {[ "title" := JStr "" ]})) |})
  ∧ reply get_api_issues
      (after (post_api_issues noon (BodyObject ∅))
         (after (post_api_issues noon (BodyObject ∅)) fresh_server))
    = {| status := 200;
         payload := JArr [ JObj (newIssue noon (BodyObject ∅));
                           JObj (newIssue noon (BodyObject ∅)) ] |}.
Proof.
  split_and!.
  - done.
  - by rewrite (proj1 (proj2 (newIssue_lookup _ _))).
  - done.
  - done.
Qed.

(** C5, amended. POST /api/issues replies 200 with the created issue: its
    [issueId] is "issue_" followed by the epoch milliseconds, and each of
    [title], [description] and [status] is the value of the body when that
    value is truthy, and otherwise (absent, or given as "", 0, false or
    null) the default "Untitled", "" and "todo".  GET /api/issues then
    returns the issues stored before followed by the created one, which is
    the only issue of its id when no issue stored before had that id. *)
Theorem created_issue (w : Server) (clk : Clock) (body : Body) :
  let i := newIssue clk body in
  let w' := after (post_api_issues clk body) w in
  reply (post_api_issues clk body) w = {| status := 200; payload := JObj i |}
  ∧ i !! "issueId" = Some (JStr ("issue_" +:+ pretty (now clk)))
  ∧ (∀ k dflt,
       (k, dflt) ∈ [("title", JStr "Untitled"); ("description", JStr "");
                    ("status", JStr "todo")] →
       (prop body k = None → i !! k = Some dflt)
       ∧ (∀ v, prop body k = Some v → truthy (Some v) = true → i !! k = Some v)
       ∧ (∀ v, prop body k = Some v → truthy (Some v) = false → i !! k = Some dflt))
  ∧ issues (store w') = issues (store w) ++ [i]
  ∧ reply get_api_issues w'
      = {| status := 200; payload := JArr (JObj <$> issues (store w) ++ [i]) |}
  ∧ (Forall (λ x, ¬ has_issueId ("issue_" +:+ pretty (now clk)) x) (issues (store w)) →
     ∀ n x, issues (store w') !! n = Some x →
            has_issueId ("issue_" +:+ pretty (now clk)) x →
            n = length (issues (store w)) ∧ x = i).
Proof.
  intros i w'. subst i w'. unfold after, reply. rewrite create_issue.
  cbn [fst snd store issues].
  destruct (newIssue_lookup clk body) as (Hid & Ht & Hd & Hs).
  split_and!; try done.
  - intros k dflt Hin.
    assert (newIssue clk body !! k = Some (or_else (prop body k) dflt)) as ->.
    { repeat (apply elem_of_cons in Hin as [[= -> ->] | Hin]; [done|]).
      by apply elem_of_nil in Hin. }
    split_and!.
    + by intros ->.
    + intros v -> Hv. by rewrite or_else_truthy.
    + intros v -> Hv. by rewrite or_else_falsy.
  - intros Hfresh n x Hn Hx.
    apply lookup_app_Some in Hn as [Hn | [Hlen Hn]].
    + exfalso. by eapply (Forall_lookup_1 _ _ _ _ Hfresh Hn).
    + apply list_lookup_singleton_Some in Hn as [Hn ->]. split; [lia | done].
Qed.

Lemma created_issue_witness :
  Forall (λ x, ¬ has_issueId "issue_1700000000000" x) (issues (store fresh_server))
  ∧ prop (note "Fix bug" "") "status" = None
  ∧ newIssue noon (note "Fix bug" "") !! "status" = Some (JStr "todo")
  ∧ (0 = length (issues (store fresh_server))
     ∧ newIssue noon (note "Fix bug" "") = newIssue noon (note "Fix bug" "")).
Proof.
  pose proof (created_issue fresh_server noon (note "Fix bug" ""))
    as (_ & Hid & Hfields & _ & _ & Honce).
  assert (Forall (λ x, ¬ has_issueId "issue_1700000000000" x)
            (issues (store fresh_server))) as Hfresh by constructor.
  split; [exact Hfresh|]. split; [reflexivity|]. split.
  - assert (("status", JStr "todo")
            ∈ [("title", JStr "Untitled"); ("description", JStr "");
               ("status", JStr "todo")]) as Hin.
    { apply elem_of_cons. right. apply elem_of_cons. right.
      apply elem_of_cons. left. reflexivity. }
    exact (proj1 (Hfields "status" (JStr "todo") Hin) eq_refl).
  - apply (Honce Hfresh 0 (newIssue noon (note "Fix bug" ""))); [reflexivity|].
    unfold has_issueId. rewrite Hid. reflexivity.
Defined.

(** *** Deleting an issue *)

Lemma absent_find issueId (l : list (gmap string json)) :
  Forall (λ i, ¬ has_issueId issueId i) l ↔ list_find (has_issueId issueId) l = None.
Proof. by rewrite list_find_None. Qed.

(** The first issue of the id splits the list around it. *)
Lemma find_split issueId (l : list (gmap string json)) index x :
  list_find (has_issueId issueId) l = Some (index, x) →
  l = take index l ++ x :: drop (S index) l
  ∧ length (take index l) = index
  ∧ Forall (λ i, ¬ has_issueId issueId i) (take index l)
  ∧ has_issueId issueId x.
Proof.
  intros (Hi & Hx & Hleast)%list_find_Some.
  pose proof (lookup_lt_Some _ _ _ Hi) as Hlt.
  split_and!; [| | | done].
  - by rewrite take_drop_middle.
  - rewrite length_take. lia.
  - apply Forall_lookup. intros j y Hj.
    apply lookup_take_Some in Hj as [Hj Hji]. by eapply Hleast.
Qed.

Lemma delete_found (w : Server) issueId index x :
  list_find (has_issueId issueId) (issues (store w)) = Some (index, x) →
  delete_api_issues_issueId issueId w =
    ({| status := 200;
        payload := JObj (<["success" := JBool true]>
                         {[ "removed" := JArr [JObj x] ]}) |},
     let s' := {| graphData := graphData (store w);
                  documents := documents (store w);
                  issues := take index (issues (store w))
                            ++ drop (S index) (issues (store w)) |} in
     {| store := s'; disk := Holds s'; console := console w ++ [DataSaved] |}).
Proof.
  intros Hfind. run. rewrite Hfind. unfold splice.
  apply list_find_Some in Hfind as (Hi & _).
  rewrite (drop_S _ _ _ Hi). cbn [take fmap list_fmap].
  by rewrite Nat.add_1_r.
Qed.

Lemma delete_missing (w : Server) issueId :
  Forall (λ i, ¬ has_issueId issueId i) (issues (store w)) →
  delete_api_issues_issueId issueId w = (not_found "Issue not found", w).
Proof. intros Hnone%absent_find. run. by rewrite Hnone. Qed.

(** After two issues were created in the same millisecond, their id can be
    deleted twice. *)
Lemma second_delete_succeeds :
  status (reply (delete_api_issues_issueId "issue_1700000000000")
            (after (delete_api_issues_issueId "issue_1700000000000") two_todos))
    ≠ 404.
Proof. vm_compute. discriminate. Qed.

(** C6, amended. When some issue has the id, DELETE removes the first such
    issue, every other issue staying in place and in order, and replies 200
    with [{success: true, removed: [issue]}]; a second DELETE of the id is
    then answered 404 when no other issue had the id, and 200 when one had.
    When no issue has the id the reply is 404 with an error message and the
    server is unchanged. *)
Theorem delete_issue (w : Server) (issueId : string) :
  let l := issues (store w) in
  let w' := after (delete_api_issues_issueId issueId) w in
  (∀ index x,
     list_find (has_issueId issueId) l = Some (index, x) →
     reply (delete_api_issues_issueId issueId) w
       = {| status := 200;
            payload := JObj (<["success" := JBool true]>
                             {[ "removed" := JArr [JObj x] ]}) |}
     ∧ graphData (store w') = graphData (store w)
     ∧ documents (store w') = documents (store w)
     ∧ ∃ l1 l2,
         l = l1 ++ x :: l2
         ∧ length l1 = index
         ∧ Forall (λ i, ¬ has_issueId issueId i) l1
         ∧ has_issueId issueId x
         ∧ issues (store w') = l1 ++ l2
         ∧ (Forall (λ i, ¬ has_issueId issueId i) l2 →
            delete_api_issues_issueId issueId w' = (not_found "Issue not found", w'))
         ∧ (¬ Forall (λ i, ¬ has_issueId issueId i) l2 →
            status (reply (delete_api_issues_issueId issueId) w') = 200))
  ∧ (Forall (λ i, ¬ has_issueId issueId i) l →
     delete_api_issues_issueId issueId w = (not_found "Issue not found", w)).
Proof.
  intros l w'. subst l w'. split; [|apply delete_missing].
  intros index x Hfind. unfold after, reply. rewrite (delete_found _ _ _ _ Hfind).
  cbn [fst snd store graphData documents issues].
  destruct (find_split _ _ _ _ Hfind) as (Hl & Hlen & Hl1 & Hx).
  split_and!; try done.
  exists (take index (issues (store w))), (drop (S index) (issues (store w))).
  split_and!; try done.
  - intros Hl2. apply delete_missing. cbn [store issues].
    by apply Forall_app.
  - intros Hl2.
    destruct (list_find (has_issueId issueId)
                (take index (issues (store w)) ++ drop (S index) (issues (store w))))
      as [[j y]|] eqn:Hfind'.
    + set (w1 := {| store := _ |}).
      by rewrite (delete_found w1 issueId j y Hfind').
    + exfalso. apply Hl2. apply absent_find in Hfind'.
      by apply Forall_app in Hfind' as [_ ?].
Qed.

Lemma delete_issue_witness :
  list_find (has_issueId "issue_1700000000000") (issues (store one_todo))
    = Some (0, newIssue noon (BodyObject ∅))
  ∧ reply (delete_api_issues_issueId "issue_1700000000000") one_todo
    = {| status := 200;
         payload := JObj (<["success" := JBool true]>
                          {[ "removed" := JArr [JObj (newIssue noon (BodyObject ∅))] ]}) |}
  ∧ Forall (λ i, ¬ has_issueId "issue_1700000000000" i) (issues (store fresh_server))
  ∧ delete_api_issues_issueId "issue_1700000000000" fresh_server
    = (not_found "Issue not found", fresh_server).
Proof.
  assert (list_find (has_issueId "issue_1700000000000") (issues (store one_todo))
          = Some (0, newIssue noon (BodyObject ∅))) as Hfound
    by (vm_compute; reflexivity).
  assert (Forall (λ i, ¬ has_issueId "issue_1700000000000" i)
            (issues (store fresh_server))) as Hnone by constructor.
  split; [exact Hfound|]. split.
  - exact (proj1 (proj1 (delete_issue one_todo "issue_1700000000000") 0 _ Hfound)).
  - split; [exact Hnone|].
    exact (proj2 (delete_issue fresh_server "issue_1700000000000") Hnone).
Defined.

(** *** Updating an issue *)

Lemma put_found (w : Server) issueId body k issue :
  list_find (has_issueId issueId) (issues (store w)) = Some (k, issue) →
  put_api_issues_issueId issueId body w =
    ({| status := 200; payload := JObj (assign issue body) |},
     let s' := {| graphData := graphData (store w);
                  documents := documents (store w);
                  issues := <[k := assign issue body]> (issues (store w)) |} in
     {| store := s'; disk := Holds s'; console := console w ++ [DataSaved] |}).
Proof. intros Hfind. run. by rewrite Hfind. Qed.

Lemma put_missing (w : Server) issueId body :
  Forall (λ i, ¬ has_issueId issueId i) (issues (store w)) →
  put_api_issues_issueId issueId body w = (not_found "Issue not found", w).
Proof. intros Hnone%absent_find. run. by rewrite Hnone. Qed.

(** C7. PUT /api/issues/:issueId with an id no stored issue has replies 404
    with an error message and leaves the server as it was: the store, the
    data file (nothing is saved) and the console. *)
Theorem put_missing_issue (w : Server) (issueId : string) (body : Body) :
  Forall (λ i, ¬ has_issueId issueId i) (issues (store w)) →
  put_api_issues_issueId issueId body w
    = ({| status := 404; payload := JObj {[ "error" := JStr "Issue not found" ]} |}, w).
Proof. apply put_missing. Qed.

Lemma put_missing_issue_witness :
  Forall (λ i, ¬ has_issueId "issue_7" i) (issues (store two_todos))
  ∧ put_api_issues_issueId "issue_7" (BodyObject {[ "status" := JStr "done" ]}) two_todos
    = ({| status := 404; payload := JObj {[ "error" := JStr "Issue not found" ]} |},
       two_todos).
Proof.
  assert (Forall (λ i, ¬ has_issueId "issue_7" i) (issues (store two_todos))) as H.
  { apply absent_find. vm_compute. reflexivity. }
  split; [exact H|].
  exact (put_missing_issue two_todos "issue_7" (BodyObject {[ "status" := JStr "done" ]}) H).
Defined.

Lemma assign_member (issue : gmap string json) body key v :
  key ≠ "__proto__" →
  ownProps body !! key = Some v →
  assign issue body !! key = Some v.
Proof.
  intros Hkey Hv. unfold assign. apply lookup_union_Some_l.
  case_decide; [done|]. by rewrite lookup_delete_ne.
Qed.

Lemma assign_other (issue : gmap string json) body key :
  ownProps body !! key = None →
  assign issue body !! key = issue !! key.
Proof.
  intros Hv. unfold assign. apply lookup_union_r.
  case_decide; [done|]. apply lookup_delete_None. by right.
Qed.

(** Renaming the first of two issues that share an id leaves the id in use;
    and a [__proto__] key of the body becomes no member of the issue. *)
Lemma renamed_issue_id_still_found :
  status (reply (put_api_issues_issueId "issue_1700000000000" (BodyObject ∅))
            (after (put_api_issues_issueId "issue_1700000000000"
                      (BodyObject {[ "issueId" := JStr "renamed" ]})) two_todos))
    ≠ 404
  ∧ assign (newIssue noon (BodyObject ∅)) (BodyObject {[ "__proto__" := JNum 5 ]})
      !! "__proto__" = None.
Proof. split; [vm_compute; discriminate | vm_compute; reflexivity]. Qed.

(** C8, amended. PUT on the id of a stored issue protects no member: every
    key of the body other than [__proto__] (issueId and any status value
    included) is written to the first issue of that id with the value of the
    body, the other members stay, and the reply is the merged issue.  When
    the body has an [issueId] key, the issue stays at its place in the list
    under the new value; the original id is then unknown (404 on PUT and
    DELETE) exactly when the new value differs from it and no other issue
    had it. *)
Theorem put_overwrites
    (w : Server) (issueId : string) (body : Body)
    (k : nat) (issue : gmap string json) :
  list_find (has_issueId issueId) (issues (store w)) = Some (k, issue) →
  let issue' := assign issue body in
  let w' := after (put_api_issues_issueId issueId body) w in
  reply (put_api_issues_issueId issueId body) w
    = {| status := 200; payload := JObj issue' |}
  ∧ issues (store w') = <[k := issue']> (issues (store w))
  ∧ (∀ key v, key ≠ "__proto__" → ownProps body !! key = Some v →
              issue' !! key = Some v)
  ∧ (∀ key, ownProps body !! key = None → issue' !! key = issue !! key)
  ∧ (∀ v, ownProps body !! "issueId" = Some v →
       issues (store w') !! k = Some issue'
       ∧ issue' !! "issueId" = Some v
       ∧ (∀ new, v = JStr new → has_issueId new issue')
       ∧ (Forall (λ i, ¬ has_issueId issueId i) (issues (store w'))
          ↔ as_string (Some v) ≠ Some issueId
            ∧ ∀ j y, issues (store w) !! j = Some y → has_issueId issueId y → j = k)
       ∧ (Forall (λ i, ¬ has_issueId issueId i) (issues (store w')) →
          (∀ body', put_api_issues_issueId issueId body' w'
                    = (not_found "Issue not found", w'))
          ∧ delete_api_issues_issueId issueId w'
            = (not_found "Issue not found", w'))).
Proof.
  intros Hfind issue' w'. subst issue' w'. unfold after, reply.
  rewrite (put_found _ _ _ _ _ Hfind). cbn [fst snd store issues].
  pose proof Hfind as (Hk & Hhas & Hleast)%list_find_Some.
  pose proof (lookup_lt_Some _ _ _ Hk) as Hlt.
  split_and!; try done.
  - intros key v. apply assign_member.
  - intros key. apply assign_other.
  - intros v Hv.
    assert (assign issue body !! "issueId" = Some v) as Hid
      by (by apply assign_member).
    split_and!.
    + by apply list_lookup_insert_eq.
    + done.
    + intros new ->. unfold has_issueId. by rewrite Hid.
    + rewrite Forall_lookup. split.
      * intros Hnone. split.
        -- intros Heq. apply (Hnone k (assign issue body)).
           ++ by apply list_lookup_insert_eq.
           ++ unfold has_issueId. by rewrite Hid.
        -- intros j y Hj Hy. destruct (decide (j = k)) as [|Hne]; [done|].
           exfalso. apply (Hnone j y); [|done].
           by rewrite list_lookup_insert_ne.
      * intros [Hv' Honly] j y Hj Hy.
        apply list_lookup_insert_Some in Hj as [(-> & <- & _) | [Hne Hj]].
        -- unfold has_issueId in Hy. by rewrite Hid in Hy.
        -- by specialize (Honly j y Hj Hy).
    + intros Hnone. split.
      * intros body'. by apply put_missing.
      * by apply delete_missing.
Qed.

Lemma put_overwrites_witness :
  list_find (has_issueId "issue_1700000000000") (issues (store two_todos))
    = Some (0, newIssue noon (BodyObject ∅))
  ∧ reply (put_api_issues_issueId "issue_1700000000000"
             (BodyObject {[ "status" := JStr "blocked" ]})) two_todos
    = {| status := 200;
         payload := JObj (assign (newIssue noon (BodyObject ∅))
                            (BodyObject {[ "status" := JStr "blocked" ]})) |}.
Proof.
  assert (list_find (has_issueId "issue_1700000000000") (issues (store two_todos))
          = Some (0, newIssue noon (BodyObject ∅))) as H
    by (vm_compute; reflexivity).
  split; [exact H|].
  exact (proj1 (put_overwrites two_todos "issue_1700000000000"
                  (BodyObject {[ "status" := JStr "blocked" ]}) 0 _ H)).
Defined.

(** The scenario of the specification: create an issue, then move it to done. *)
Example fix_bug_scenario :
  reply (post_api_issues noon fix_bug) fresh_server
    = {| status := 200;
         payload := JObj (<["issueId" := JStr "issue_1700000000000"]>
                         (<["title" := JStr "Fix bug"]>
                         (<["description" := JStr ""]>
                          {[ "status" := JStr "todo" ]}))) |}
  ∧ reply get_api_issues
      (after (put_api_issues_issueId "issue_1700000000000"
                (BodyObject {[ "status" := JStr "done" ]}))
         (after (post_api_issues noon fix_bug) fresh_server))
    = {| status := 200;
         payload := JArr [ JObj (<["issueId" := JStr "issue_1700000000000"]>
                                (<["title" := JStr "Fix bug"]>
                                (<["description" := JStr ""]>
                                 {[ "status" := JStr "done" ]}))) ] |}.
Proof. split; vm_compute; reflexivity. Qed.

(** *** Start *)

(** Starting without a data file writes nothing to the console. *)
Lemma absent_file_not_logged :
  store (startup Absent) = emptyStore ∧ console (startup Absent) = [].
Proof. done. Qed.

(** C9, amended. Start always yields a store.  Without a data file it is the
    empty default and nothing is logged; with a file that cannot be read or
    parsed it is the empty default and the error is logged; with a file that
    parses it is the parsed value, and the load is logged.  The empty default
    has an empty node list, an empty link list, no documents and no issues. *)
Theorem startup_store (f : DataFile) :
  (existsSync f = false →
   store (startup f) = emptyStore ∧ console (startup f) = [])
  ∧ (existsSync f = true → readParse f = None →
     store (startup f) = emptyStore ∧ console (startup f) = [ErrorReadingData])
  ∧ (∀ parsed, existsSync f = true → readParse f = Some parsed →
     store (startup f) = parsed ∧ console (startup f) = [LoadedExistingData])
  ∧ graphData emptyStore = JObj (<["nodes" := JArr []]> {[ "links" := JArr [] ]})
  ∧ documents emptyStore = []
  ∧ issues emptyStore = [].
Proof.
  split_and!; try done; destruct f; intros; simplify_eq/=; done.
Qed.

Lemma startup_store_witness :
  (existsSync Absent = false
   ∧ store (startup Absent) = emptyStore ∧ console (startup Absent) = [])
  ∧ (existsSync Unreadable = true ∧ readParse Unreadable = None
     ∧ store (startup Unreadable) = emptyStore
     ∧ console (startup Unreadable) = [ErrorReadingData])
  ∧ (existsSync (Holds (store two_todos)) = true
     ∧ readParse (Holds (store two_todos)) = Some (store two_todos)
     ∧ store (startup (Holds (store two_todos))) = store two_todos
     ∧ console (startup (Holds (store two_todos))) = [LoadedExistingData]).
Proof.
  pose proof (startup_store Absent) as (Habsent & _).
  pose proof (startup_store Unreadable) as (_ & Hunreadable & _).
  pose proof (startup_store (Holds (store two_todos))) as (_ & _ & Hholds & _).
  split_and!.
  - reflexivity.
  - apply Habsent. reflexivity.
  - apply Habsent. reflexivity.
  - reflexivity.
  - reflexivity.
  - apply Hunreadable; reflexivity.
  - apply Hunreadable; reflexivity.
  - reflexivity.
  - reflexivity.
  - apply (Hholds (store two_todos)); reflexivity.
  - apply (Hholds (store two_todos)); reflexivity.
Defined.

(** ** Properties of the click handler *)

Module ClientFacts.
Import Client.

Lemma resolved_ends (l : Link) :
  resolved l → ∃ s t, source l = Obj s ∧ target l = Obj t.
Proof.
  intros [[a Ha] [b Hb]].
  destruct (source l) as [s|]; [|done]. destruct (target l) as [t|]; [|done].
  by exists s, t.
Qed.

(** d3 leaves a link alone once both its ends are node objects. *)
Lemma initialize_app byId (l1 l2 : list Link) :
  Forall resolved l1 →
  initialize byId (l1 ++ l2) = l1 ++ initialize byId l2.
Proof.
  induction 1 as [|l l1 Hl _ IH]; [done|].
  destruct (resolved_ends l Hl) as (s & t & Hs & Ht).
  cbn [app initialize]. rewrite Hs, Ht. cbn [resolve]. rewrite IH.
  f_equal. destruct l; simpl in *; by subst.
Qed.

Lemma initialize_resolved byId (ls : list Link) :
  Forall resolved ls → initialize byId ls = ls.
Proof.
  intros Hls. rewrite <- (app_nil_r ls) at 1.
  rewrite initialize_app by done. simpl. apply app_nil_r.
Qed.

(** The index d3 builds knows every id of the node list. *)
Lemma nodeById_lookup (ns : list Node) (n : Node) :
  n ∈ ns → ∃ n', nodeById ns !! id n = Some n' ∧ id n' = id n ∧ n' ∈ ns.
Proof.
  unfold nodeById. induction ns as [|x ns IH] using rev_ind.
  - by intros ?%elem_of_nil.
  - rewrite foldl_snoc. intros Hin.
    destruct (decide (id x = id n)) as [Heq | Hne].
    + exists x. rewrite Heq, lookup_insert_eq. split_and!; [done..|].
      apply elem_of_app. right. by apply list_elem_of_singleton.
    + rewrite lookup_insert_ne by done.
      apply elem_of_app in Hin as [Hin | Hin%list_elem_of_singleton]; [|by subst].
      destruct (IH Hin) as (n' & ? & ? & ?). exists n'. split_and!; [done..|].
      apply elem_of_app. by left.
Qed.

(** With distinct link objects, filtering on identity removes one link. *)
Lemma filter_identity (l1 l2 : list Link) (e : Link) :
  NoDup (addr <$> l1 ++ e :: l2) →
  filter (λ l, addr l ≠ addr e) (l1 ++ e :: l2) = l1 ++ l2.
Proof.
  rewrite fmap_app, fmap_cons. intros (_ & Hl1 & (He & _)%NoDup_cons)%NoDup_app.
  assert (∀ ls : list Link, (∀ l, l ∈ ls → addr l ≠ addr e) →
                            filter (λ l, addr l ≠ addr e) ls = ls) as Hkeep.
  { induction ls as [|l ls IH]; intros Hall; [done|].
    rewrite filter_cons_True by (apply Hall; left).
    rewrite IH; [done|]. intros l' ?. apply Hall. by right. }
  rewrite filter_app, filter_cons_False by (intros H; by apply H).
  rewrite !Hkeep; [done | |].
  - intros l Hl Heq. apply He. rewrite <- Heq. by apply list_elem_of_fmap_2.
  - intros l Hl Heq. apply (Hl1 (addr l)).
    + by apply list_elem_of_fmap_2.
    + rewrite Heq. left.
Qed.

Lemma fresh_not_used (ls : list Link) : fresh ls ∉ addr <$> ls.
Proof. apply max_list_not_elem_of_gt. unfold fresh. lia. Qed.

Lemma nodeById_sound (ns : list Node) (k : string) (n : Node) :
  nodeById ns !! k = Some n → id n = k ∧ n ∈ ns.
Proof.
  unfold nodeById. induction ns as [|x ns IH] using rev_ind; [done|].
  rewrite foldl_snoc. intros [[<- <-] | [_ Hn]]%lookup_insert_Some.
  - split; [done|]. apply elem_of_app. right. by apply list_elem_of_singleton.
  - destruct (IH Hn). split; [done|]. apply elem_of_app. by left.
Qed.

(** The link the handler pushes, once d3 has gone over it: the same object,
    standing for the same two ids. *)
Lemma initialize_pushed (ns : list Node) (a : nat) (k1 k2 : string) :
  ∃ e', initialize (nodeById ns) [ {| addr := a; source := Str k1; target := Str k2 |} ]
          = [e']
        ∧ addr e' = a
        ∧ end_key (source e') = k1
        ∧ end_key (target e') = k2
        ∧ ((∃ n1, n1 ∈ ns ∧ id n1 = k1) → (∃ n2, n2 ∈ ns ∧ id n2 = k2) →
           ∃ s t, e' = {| addr := a; source := Obj s; target := Obj t |}
                  ∧ id s = k1 ∧ id t = k2 ∧ s ∈ ns ∧ t ∈ ns).
Proof.
  cbn [initialize source target addr resolve].
  destruct (nodeById ns !! k1) as [s|] eqn:Hs; cbn [fmap option_fmap option_map].
  - destruct (nodeById_sound _ _ _ Hs) as [Hids Hsin].
    destruct (nodeById ns !! k2) as [t|] eqn:Ht; cbn [fmap option_fmap option_map].
    + destruct (nodeById_sound _ _ _ Ht) as [Hidt Htin].
      eexists. split_and!; [done..|]. intros _ _. by exists s, t.
    + eexists. split_and!; [done..|]. intros _ (n2 & Hn2 & <-).
      destruct (nodeById_lookup _ _ Hn2) as (? & ? & _). congruence.
  - eexists. split_and!; [done..|]. intros (n1 & Hn1 & <-).
    destruct (nodeById_lookup _ _ Hn1) as (? & ? & _). congruence.
Qed.

(** d3 changes neither the identity of a link nor the ids its ends stand for. *)
Lemma resolve_key (ns : list Node) (e e' : End) :
  resolve (nodeById ns) e = Some e' → end_key e' = end_key e.
Proof.
  destruct e as [n|k]; cbn [resolve].
  - by intros [= <-].
  - intros (n & Hn & ->)%fmap_Some.
    by destruct (nodeById_sound _ _ _ Hn).
Qed.

Lemma initialize_keys (ns : list Node) (ls : list Link) :
  link_key <$> initialize (nodeById ns) ls = link_key <$> ls.
Proof.
  induction ls as [|l ls IH]; [done|]. cbn [initialize].
  destruct (resolve (nodeById ns) (source l)) as [s|] eqn:Hs; [|done].
  apply resolve_key in Hs.
  destruct (resolve (nodeById ns) (target l)) as [t|] eqn:Ht.
  - apply resolve_key in Ht. rewrite !fmap_cons, IH.
    unfold link_key. cbn [addr source target]. by rewrite Hs, Ht.
  - rewrite !fmap_cons. unfold link_key at 1. cbn [addr source target].
    by rewrite Hs.
Qed.

Lemma initialize_addr (ns : list Node) (ls : list Link) :
  addr <$> initialize (nodeById ns) ls = addr <$> ls.
Proof.
  assert (∀ l : list Link, addr <$> l = (λ k, k.1.1) <$> (link_key <$> l)) as Hfst.
  { intros l. by rewrite <- list_fmap_compose. }
  by rewrite !Hfst, initialize_keys.
Qed.

(** C10. The selection state machine of the click handler.  A click without
    shift changes nothing.  A shift-click with no node selected selects the
    clicked node and leaves the graph alone; with a node selected, a
    shift-click on that node (the node of the same id) deselects it and
    leaves the graph alone, and a shift-click on another node deselects and
    toggles the link between the two: the first link joining them in either
    direction is removed and no other, or, when there is none, one link
    object is added at the end, with source = the selected id and target =
    the clicked id.  The nodes are never changed and the links stay distinct
    objects; d3 then puts node objects for the ids still to be resolved,
    which changes no link otherwise. *)
Theorem click_selection (shiftKey : bool) (d : Node) (v : View) :
  (shiftKey = false → onClick shiftKey d v = v)
  ∧ (shiftKey = true → selectedNode v = None →
     onClick shiftKey d v = {| graph := graph v; selectedNode := Some d |})
  ∧ (∀ sel, shiftKey = true → selectedNode v = Some sel → id sel = id d →
     onClick shiftKey d v = {| graph := graph v; selectedNode := None |})
  ∧ (∀ sel, shiftKey = true → selectedNode v = Some sel → id sel ≠ id d →
     NoDup (addr <$> links (graph v)) →
     let v' := onClick shiftKey d v in
     selectedNode v' = None
     ∧ nodes (graph v') = nodes (graph v)
     ∧ NoDup (addr <$> links (graph v'))
     ∧ ((∃ l1 e l2,
           links (graph v) = l1 ++ e :: l2
           ∧ Forall (λ l, ¬ joins sel d l) l1
           ∧ joins sel d e
           ∧ link_key <$> links (graph v') = link_key <$> l1 ++ l2
           ∧ (Forall resolved (links (graph v)) →
              links (graph v') = l1 ++ l2))
        ∨ (Forall (λ l, ¬ joins sel d l) (links (graph v))
           ∧ link_key <$> links (graph v')
             = (link_key <$> links (graph v))
               ++ [(fresh (links (graph v)), id sel, id d)]
           ∧ (Forall resolved (links (graph v)) →
              ∃ e', links (graph v') = links (graph v) ++ [e']
                    ∧ (sel ∈ nodes (graph v) → d ∈ nodes (graph v) →
                       joins sel d e' ∧ Forall resolved (links (graph v'))))))).
Proof.
  split_and!.
  - by intros ->.
  - intros -> Hsel. unfold onClick. by rewrite Hsel.
  - intros sel -> Hsel Hid. unfold onClick. rewrite Hsel. by rewrite decide_True.
  - intros sel -> Hsel Hid Hdup v'. subst v'.
    unfold onClick. rewrite Hsel. rewrite decide_False by done.
    unfold updateGraph. cbn [graph nodes links selectedNode].
    rewrite initialize_addr, initialize_keys.
    destruct (list_find (joins sel d) (links (graph v))) as [[i e]|] eqn:Hfind.
    + apply list_find_Some in Hfind as (Hi & He & Hleast).
      pose proof (take_drop_middle _ _ _ Hi) as Hsplit.
      assert (filter (λ l, addr l ≠ addr e) (links (graph v))
              = take i (links (graph v)) ++ drop (S i) (links (graph v))) as ->.
      { rewrite <- Hsplit at 1. apply filter_identity. by rewrite Hsplit. }
      split_and!; [done | done | | ].
      * rewrite <- Hsplit, !fmap_app, fmap_cons in Hdup.
        rewrite fmap_app.
        apply NoDup_app in Hdup as (H1 & H12 & (_ & H2)%NoDup_cons).
        apply NoDup_app. split_and!; [done | | done].
        intros a Ha Ha'. apply (H12 a Ha). by right.
      * left. exists (take i (links (graph v))), e, (drop (S i) (links (graph v))).
        split_and!; [done | | done | done | ].
        -- apply Forall_lookup. intros j l Hj.
           apply lookup_take_Some in Hj as [Hj Hji]. by eapply Hleast.
        -- intros Hres. apply initialize_resolved.
           apply Forall_app. split; [by apply Forall_take | by apply Forall_drop].
    + apply list_find_None in Hfind.
      split_and!; [done | done | | ].
      * rewrite fmap_app. apply NoDup_app. split_and!; [done | | ].
        -- intros a Ha ->%list_elem_of_singleton.
           by apply (fresh_not_used (links (graph v))).
        -- apply NoDup_singleton.
      * right. split_and!; [done | by rewrite fmap_app | ].
        intros Hres. rewrite initialize_app by done.
        destruct (initialize_pushed (nodes (graph v)) (fresh (links (graph v)))
                    (id sel) (id d)) as (e' & -> & _ & _ & _ & Hobj).
        exists e'. split; [done|]. intros Hselin Hdin.
        destruct Hobj as (s & t & -> & Hs & Ht & _); [by exists sel | by exists d |].
        split.
        -- left. cbn [source target end_id]. by rewrite Hs, Ht.
        -- apply Forall_app. split; [done|].
           apply Forall_singleton. split; by eexists.
Qed.

Lemma click_selection_witness :
  NoDup (addr <$> links (graph pending_view))
  ∧ selectedNode (onClick true node_b pending_view) = None
  ∧ nodes (graph (onClick true node_b pending_view)) = [node_a; node_b].
Proof.
  assert (NoDup (addr <$> links (graph pending_view))) as Hdup
    by apply NoDup_singleton.
  split; [exact Hdup|].
  destruct (proj2 (proj2 (proj2 (click_selection true node_b pending_view)))
              node_a eq_refl eq_refl) as (Hsel & Hnodes & _).
  - discriminate.
  - exact Hdup.
  - split; [exact Hsel | exact Hnodes].
Defined.

(** Two shift-clicks add the missing link, two more remove it again. *)
Example toggle_on :
  links (graph (onClick true node_b (onClick true node_a unlinked_view)))
    = [ {| addr := 1; source := Obj node_a; target := Obj node_b |} ].
Proof. vm_compute. reflexivity. Qed.

Example toggle_off :
  onClick true node_a
    (onClick true node_b
       (onClick true node_b (onClick true node_a unlinked_view)))
    = unlinked_view.
Proof. vm_compute. reflexivity. Qed.

Example plain_click : onClick false node_b pending_view = pending_view.
Proof. reflexivity. Qed.

End ClientFacts.


(** ** Properties of request sequences *)

Lemma serve_app (rs1 rs2 : list Request) (w : Server) :
  serve (rs1 ++ rs2) w = serve rs2 (serve rs1 w).
Proof. revert w. induction rs1 as [|r rs1 IH]; intros w; [done|]. apply IH. Qed.

(** A property kept by every request is kept by every sequence of them. *)
Lemma serve_invariant (P : Server → Prop) :
  (∀ r w, P w → P (after (handle r) w)) →
  ∀ rs w, P w → P (serve rs w).
Proof.
  intros Hstep rs. induction rs as [|r rs IH]; intros w Hw; [done|].
  cbn [serve]. by apply IH, Hstep.
Qed.

(** X1. Whatever the data file held at start and whatever requests were
    served since, a restart on the data file as it is now loads the store
    the server has in memory: every route that changes the store saves it,
    and the routes answering 404 change nothing. *)
Theorem restart_recovers (f : DataFile) (rs : list Request) :
  store (startup (disk (serve rs (startup f)))) = store (serve rs (startup f)).
Proof.
  apply (serve_invariant (λ w, store (startup (disk w)) = store w)).
  - intros r w Hw. destruct (handled_is_saved r w) as [-> | ->]; done.
  - by destruct f.
Qed.

Lemma well_versioned_kept (rs : list Request) (w : Server) :
  Forall well_versioned (documents (store w)) →
  Forall well_versioned (documents (store (serve rs w))).
Proof.
  apply (serve_invariant (λ w, Forall well_versioned (documents (store w)))).
  intros r w'. apply handled_well_versioned.
Qed.

(** X2. Every sequence of requests keeps the documents well versioned: each
    has at least one version and [currentVersion] is the index of the last. *)
Theorem served_well_versioned (rs : list Request) (w : Server) :
  Forall well_versioned (documents (store w)) →
  Forall well_versioned (documents (store (serve rs w))).
Proof. apply well_versioned_kept. Qed.

Lemma served_well_versioned_witness :
  Forall well_versioned (documents (store fresh_server))
  ∧ Forall well_versioned
      (documents (store (serve [ PostDocument noon (note "Plan" "draft");
                                 PostCommit "doc_1700000000000" later (text "second");
                                 PostCommit "doc_0" later (text "lost") ]
                           fresh_server))).
Proof.
  assert (Forall well_versioned (documents (store fresh_server))) as H
    by constructor.
  split; [exact H|].
  exact (served_well_versioned _ fresh_server H).
Defined.

(** X3. A request is answered 200 or 404; 404 is the answer only of the four
    routes that take an id, and a request answered 404 leaves the server
    exactly as it was (store, data file and console). *)
Theorem not_found_changes_nothing (r : Request) (w : Server) :
  (status (reply (handle r) w) = 200 ∨ status (reply (handle r) w) = 404)
  ∧ (status (reply (handle r) w) = 404 →
     after (handle r) w = w
     ∧ match r with
       | GetDocument _ | PostCommit _ _ _ | PutIssue _ _ | DeleteIssue _ => True
       | _ => False
       end).
Proof.
  destruct r; cbn [handle]; run; try (split; [by left | done]);
    destruct (list_find _ _) as [[i d]|]; cbn [fst snd status];
    (split; [by (left + right) | done]).
Qed.

Lemma not_found_changes_nothing_witness :
  status (reply (handle (PutIssue "issue_7" (BodyObject ∅))) two_todos) = 404
  ∧ after (handle (PutIssue "issue_7" (BodyObject ∅))) two_todos = two_todos.
Proof.
  assert (status (reply (handle (PutIssue "issue_7" (BodyObject ∅))) two_todos) = 404)
    as H by (vm_compute; reflexivity).
  split; [exact H|].
  exact (proj1 (proj2 (not_found_changes_nothing
                         (PutIssue "issue_7" (BodyObject ∅)) two_todos) H)).
Defined.

(** X4. A request touches one collection at most: the four GET routes change
    nothing at all, POST /api/graph leaves the documents and the issues, the
    document routes leave the graph and the issues, the issue routes leave
    the graph and the documents. *)
Theorem routes_frame (r : Request) (w : Server) :
  match r with
  | GetGraph | GetDocuments | GetDocument _ | GetIssues =>
      after (handle r) w = w
  | PostGraph _ =>
      documents (store (after (handle r) w)) = documents (store w)
      ∧ issues (store (after (handle r) w)) = issues (store w)
  | PostDocument _ _ | PostCommit _ _ _ =>
      graphData (store (after (handle r) w)) = graphData (store w)
      ∧ issues (store (after (handle r) w)) = issues (store w)
  | PostIssue _ _ | PutIssue _ _ | DeleteIssue _ =>
      graphData (store (after (handle r) w)) = graphData (store w)
      ∧ documents (store (after (handle r) w)) = documents (store w)
  end.
Proof.
  destruct r; cbn [handle]; run; try done;
    destruct (list_find _ _) as [[i d]|]; done.
Qed.

(** One request keeps every stored document at its index, with its id, its
    title and its versions, to which a commit may have added one. *)
Lemma handled_append_only (r : Request) (w : Server) (i : nat) (d : Document) :
  documents (store w) !! i = Some d →
  ∃ d', documents (store (after (handle r) w)) !! i = Some d'
        ∧ docId d' = docId d ∧ title d' = title d
        ∧ versions d `prefix_of` versions d'.
Proof.
  intros Hi.
  assert (∃ d', documents (store w) !! i = Some d'
                ∧ docId d' = docId d ∧ title d' = title d
                ∧ versions d `prefix_of` versions d') as Hsame
    by (by exists d).
  destruct r; cbn [handle]; run; try done.
  - destruct (list_find _ _) as [[j x]|]; done.
  - exists d. split_and!; [|done..]. by apply lookup_app_l_Some.
  - destruct (list_find _ _) as [[j x]|] eqn:Hfind; [|done].
    cbn [fst snd store documents].
    apply list_find_Some in Hfind as (Hj & _).
    destruct (decide (j = i)) as [-> | Hne].
    + exists (commit clk body d). rewrite Hj in Hi. injection Hi as ->.
      split_and!; [|done|done|by apply prefix_app_r].
      apply list_lookup_insert_eq. by eapply lookup_lt_Some.
    + exists d. by rewrite list_lookup_insert_ne.
  - destruct (list_find _ _) as [[j x]|]; done.
  - destruct (list_find _ _) as [[j x]|]; done.
Qed.

(** X5. The version history is append-only: whatever requests are served, a
    stored document stays at its index with its id and title, and the
    versions it had remain, in order, the first of those it has afterwards.
    No route deletes a document or rewrites a version. *)
Theorem history_append_only
    (rs : list Request) (w : Server) (i : nat) (d : Document) :
  documents (store w) !! i = Some d →
  ∃ d', documents (store (serve rs w)) !! i = Some d'
        ∧ docId d' = docId d ∧ title d' = title d
        ∧ versions d `prefix_of` versions d'.
Proof.
  revert w d. induction rs as [|r rs IH]; intros w d Hi.
  - by exists d.
  - destruct (handled_append_only r w i d Hi) as (d1 & H1 & Hid1 & Ht1 & Hp1).
    destruct (IH _ _ H1) as (d' & H' & Hid' & Ht' & Hp').
    exists d'. cbn [serve]. split_and!; [done | congruence | congruence |].
    by etrans.
Qed.

Lemma history_append_only_witness :
  documents (store one_note) !! 0 = Some (newDoc noon (note "Plan" "draft"))
  ∧ ∃ d', documents (store (serve [ PostCommit "doc_1700000000000" later (text "second");
                                    PostDocument later (note "Log" "entry") ]
                              one_note)) !! 0 = Some d'
          ∧ versions (newDoc noon (note "Plan" "draft")) `prefix_of` versions d'.
Proof.
  assert (documents (store one_note) !! 0 = Some (newDoc noon (note "Plan" "draft")))
    as H by reflexivity.
  split; [exact H|].
  destruct (history_append_only
              [ PostCommit "doc_1700000000000" later (text "second");
                PostDocument later (note "Log" "entry") ] one_note 0 _ H)
    as (d' & Hd' & _ & _ & Hp).
  exists d'. split; [exact Hd' | exact Hp].
Defined.

Lemma assign_keeps_member (issue : gmap string json) body key :
  is_Some (issue !! key) → is_Some (assign issue body !! key).
Proof.
  intros Hkey. unfold assign. apply lookup_union_is_Some. by right.
Qed.

Lemma handled_has_members (r : Request) (w : Server) :
  Forall has_members (issues (store w)) →
  Forall has_members (issues (store (after (handle r) w))).
Proof.
  intros Hinv. destruct r; cbn [handle]; run; try done.
  - destruct (list_find _ _) as [[i d]|]; done.
  - destruct (list_find _ _) as [[i d]|]; done.
  - apply Forall_app. split; [done|]. apply Forall_singleton.
    destruct (newIssue_lookup clk body) as (H1 & H2 & H3 & H4).
    unfold has_members. rewrite H1, H2, H3, H4. by split_and!.
  - destruct (list_find _ _) as [[k issue]|] eqn:Hfind; [|done].
    cbn [fst snd store issues].
    apply list_find_Some in Hfind as (Hk & _).
    apply Forall_insert; [done|].
    pose proof (Forall_lookup_1 _ _ _ _ Hinv Hk) as (? & ? & ? & ?).
    unfold has_members. split_and!; by apply assign_keeps_member.
  - destruct (list_find _ _) as [[k issue]|]; [|done].
    unfold splice. cbn [fst snd store issues].
    apply Forall_app. split; [by apply Forall_take | by apply Forall_drop].
Qed.

(** X6. No request removes a member from an issue: when every stored issue
    has its [issueId], [title], [description] and [status], so has every
    issue after any sequence of requests, whatever the PUT bodies were. *)
Theorem issues_keep_members (rs : list Request) (w : Server) :
  Forall has_members (issues (store w)) →
  Forall has_members (issues (store (serve rs w))).
Proof.
  apply (serve_invariant (λ w, Forall has_members (issues (store w)))).
  intros r w'. apply handled_has_members.
Qed.

Lemma issues_keep_members_witness :
  Forall has_members (issues (store fresh_server))
  ∧ Forall has_members
      (issues (store (serve [ PostIssue noon fix_bug;
                              PutIssue "issue_1700000000000"
                                (BodyArray [JNull; JStr "x"]) ]
                        fresh_server))).
Proof.
  assert (Forall has_members (issues (store fresh_server))) as H by constructor.
  split; [exact H|].
  exact (issues_keep_members _ fresh_server H).
Defined.

(** *** Identifiers *)

Lemma prefixed_inj (p s1 s2 : string) : p +:+ s1 = p +:+ s2 → s1 = s2.
Proof. induction p as [|c p IH]; [done|]. intros [= H]. by apply IH. Qed.

Lemma docId_clock clk clk' body body' :
  docId (newDoc clk body) = docId (newDoc clk' body') ↔ now clk = now clk'.
Proof.
  cbn [newDoc docId]. split.
  - intros H%prefixed_inj. by apply (inj pretty).
  - by intros ->.
Qed.

Lemma served_creations (cs : list (Clock * Body)) (w : Server) :
  documents (store (serve (uncurry PostDocument <$> cs) w))
    = documents (store w) ++ (uncurry newDoc <$> cs).
Proof.
  revert w. induction cs as [|[clk body] cs IH]; intros w.
  - by rewrite app_nil_r.
  - rewrite fmap_cons. cbn [serve handle uncurry]. rewrite IH.
    unfold after. rewrite create_document. cbn [snd store documents].
    by rewrite <- app_assoc.
Qed.

(** X7. Documents created at pairwise different clock readings on a server
    started without documents get pairwise different ids, and each of them
    is the document GET /api/documents/:docId returns for its id. *)
Theorem distinct_clocks_fetch_back (cs : list (Clock * Body)) (w : Server) :
  documents (store w) = [] →
  NoDup ((λ c, now c.1) <$> cs) →
  let w' := serve (uncurry PostDocument <$> cs) w in
  NoDup (docId <$> documents (store w'))
  ∧ ∀ clk body,
      (clk, body) ∈ cs →
      reply (get_api_documents_docId (docId (newDoc clk body))) w'
        = {| status := 200; payload := document_json (newDoc clk body) |}.
Proof.
  intros Hempty Hdup w'. subst w'.
  assert (documents (store (serve (uncurry PostDocument <$> cs) w))
          = uncurry newDoc <$> cs) as Hdocs
    by (by rewrite served_creations, Hempty).
  split.
  - rewrite Hdocs. rewrite <- list_fmap_compose.
    apply NoDup_fmap_2_strong; [|by eapply NoDup_fmap_1].
    intros [c1 b1] [c2 b2] H1 H2 Heq. cbn [compose uncurry] in Heq.
    apply docId_clock in Heq.
    apply list_elem_of_lookup in H1 as [i1 H1].
    apply list_elem_of_lookup in H2 as [i2 H2].
    assert (i1 = i2) as ->; [|congruence].
    eapply NoDup_lookup; [exact Hdup | |].
    + by rewrite list_lookup_fmap, H1.
    + rewrite list_lookup_fmap, H2. cbn. by rewrite Heq.
  - intros clk body [k Hk]%list_elem_of_lookup. run. rewrite Hdocs.
    assert (list_find (has_docId (docId (newDoc clk body))) (uncurry newDoc <$> cs)
            = Some (k, newDoc clk body)) as ->; [|done].
    apply list_find_Some. split_and!.
    + by rewrite list_lookup_fmap, Hk.
    + done.
    + intros j y Hj Hjk Hy.
      apply list_lookup_fmap_Some in Hj as ([c b] & -> & Hj).
      cbn [uncurry] in Hy. apply docId_clock in Hy.
      assert (j = k) as ->; [|lia].
      eapply NoDup_lookup; [exact Hdup | |].
      * by rewrite list_lookup_fmap, Hj.
      * rewrite list_lookup_fmap, Hk. cbn. by rewrite Hy.
Qed.

Lemma distinct_clocks_fetch_back_witness :
  documents (store fresh_server) = []
  ∧ NoDup ((λ c : Clock * Body, now c.1)
             <$> [(noon, note "Plan" "draft"); (later, note "Log" "entry")])
  ∧ reply (get_api_documents_docId (docId (newDoc later (note "Log" "entry"))))
      (serve (uncurry PostDocument
                <$> [(noon, note "Plan" "draft"); (later, note "Log" "entry")])
         fresh_server)
    = {| status := 200;
         payload := document_json (newDoc later (note "Log" "entry")) |}.
Proof.
  assert (NoDup ((λ c : Clock * Body, now c.1)
                   <$> [(noon, note "Plan" "draft"); (later, note "Log" "entry")]))
    as Hdup.
  { apply NoDup_cons. split; [|apply NoDup_singleton].
    intros H%list_elem_of_singleton. discriminate H. }
  split; [reflexivity|]. split; [exact Hdup|].
  apply (proj2 (distinct_clocks_fetch_back
                  [(noon, note "Plan" "draft"); (later, note "Log" "entry")]
                  fresh_server eq_refl Hdup)).
  apply elem_of_cons. right. apply elem_of_cons. by left.
Defined.

(** ** Properties of the other handlers of the graph view *)

Module GraphFacts.
Import Client ClientFacts.

Lemma closed_resolved (g : Graph) : closed g → Forall resolved (links g).
Proof.
  intros H. eapply Forall_impl; [exact H|]. intros l (s & t & Hs & Ht & _).
  unfold resolved. rewrite Hs, Ht. split; by eexists.
Qed.

(** Broken edges do not appear when links are dropped and node ids added. *)
Lemma closed_sub (ns ns' : list Node) (ls ls' : list Link) :
  (∀ k, k ∈ id <$> ns → k ∈ id <$> ns') →
  (∀ l, l ∈ ls' → l ∈ ls) →
  closed {| nodes := ns; links := ls |} →
  closed {| nodes := ns'; links := ls' |}.
Proof.
  unfold closed. cbn [nodes links]. rewrite !Forall_forall.
  intros Hns Hls Hclosed l Hl.
  destruct (Hclosed l (Hls l Hl)) as (s & t & ? & ? & ? & ?).
  exists s, t. split_and!; auto.
Qed.

Lemma filter_agree {A} (P Q : A → Prop)
    `{∀ x, Decision (P x)} `{∀ x, Decision (Q x)} (l : list A) :
  Forall (λ x, P x ↔ Q x) l → filter P l = filter Q l.
Proof.
  induction 1 as [|x l Hx Hl IH]; [done|].
  rewrite !filter_cons, IH.
  destruct (decide (P x)), (decide (Q x)); tauto.
Qed.

Lemma graph_eta (g : Graph) : {| nodes := nodes g; links := links g |} = g.
Proof. by destruct g. Qed.

Lemma onDblClick_closed (d : Node) (v : View) :
  closed (graph v) →
  nodes (graph (onDblClick true d v))
    = filter (λ n, id n ≠ id d) (nodes (graph v))
  ∧ (id d ∉ (id <$> nodes (graph (onDblClick true d v))))
  ∧ links (graph (onDblClick true d v))
    = filter (λ l, end_key (source l) ≠ id d ∧ end_key (target l) ≠ id d)
             (links (graph v))
  ∧ closed (graph (onDblClick true d v))
  ∧ selectedNode (onDblClick true d v) = selectedNode v.
Proof.
  intros Hclosed.
  pose proof (closed_resolved _ Hclosed) as Hres.
  unfold onDblClick, updateGraph. cbn [graph nodes links selectedNode].
  set (keep := filter _ (links (graph v))).
  assert (Forall resolved keep) as Hkeep.
  { apply Forall_forall. intros l [_ Hl]%list_elem_of_filter.
    by eapply Forall_forall in Hres. }
  rewrite initialize_resolved by done.
  split_and!; [done | | | | done].
  - intros (n & Hid & [Hn _]%list_elem_of_filter)%list_elem_of_fmap.
    by apply Hn.
  - subst keep. apply filter_agree.
    eapply Forall_impl; [exact Hclosed|].
    intros l (s & t & -> & -> & _). cbn [end_id end_key].
    split; intros [H1 H2]; split; congruence.
  - unfold closed. cbn [nodes links]. apply Forall_forall.
    intros l [[Hs Ht] Hl]%list_elem_of_filter.
    destruct (proj1 (Forall_forall _ _) Hclosed l Hl) as (s & t & Hsrc & Htgt & Hsin & Htin).
    exists s, t. rewrite Hsrc, Htgt in *. cbn [end_id] in *.
    split_and!; [done | done | |].
    + apply list_elem_of_fmap in Hsin as (n & Hn & Hin).
      apply list_elem_of_fmap. exists n. split; [done|].
      apply list_elem_of_filter. split; [|done]. congruence.
    + apply list_elem_of_fmap in Htin as (n & Hn & Hin).
      apply list_elem_of_fmap. exists n. split; [done|].
      apply list_elem_of_filter. split; [|done]. congruence.
Qed.

(** X8. The double-click handler.  Without confirmation nothing changes.
    With it, on a graph without broken edges, every node of the clicked id
    is removed and the other nodes stay in order; exactly the links with
    that id at one end are removed and the others stay in order; the graph
    is again without broken edges; the selection is left as it was. *)
Theorem delete_node (d : Node) (v : View) :
  onDblClick false d v = v
  ∧ (closed (graph v) →
     nodes (graph (onDblClick true d v))
       = filter (λ n, id n ≠ id d) (nodes (graph v))
     ∧ (id d ∉ (id <$> nodes (graph (onDblClick true d v))))
     ∧ links (graph (onDblClick true d v))
       = filter (λ l, end_key (source l) ≠ id d ∧ end_key (target l) ≠ id d)
                (links (graph v))
     ∧ closed (graph (onDblClick true d v))
     ∧ selectedNode (onDblClick true d v) = selectedNode v).
Proof. split; [done | apply onDblClick_closed]. Qed.

Lemma delete_node_witness :
  closed (graph pending_view)
  ∧ nodes (graph (onDblClick true node_a pending_view)) = [node_b]
  ∧ links (graph (onDblClick true node_a pending_view)) = [].
Proof.
  assert (closed (graph pending_view)) as H.
  { apply Forall_singleton. exists node_a, node_b.
    split_and!; [reflexivity | reflexivity | |].
    - apply elem_of_cons. by left.
    - apply elem_of_cons. right. apply elem_of_cons. by left. }
  split; [exact H|].
  destruct (proj2 (delete_node node_a pending_view) H) as (Hn & _ & Hl & _).
  split; [exact Hn | exact Hl].
Defined.

(** X9. Deleting the selected node does not clear the selection.  On a graph
    without broken edges, deleting the selected node and then shift-clicking
    another node adds a link whose source is the id of the deleted node: an
    id no node of the graph has, so that d3 cannot put a node in its place
    and the graph now has a broken edge. *)
Theorem delete_selected_then_link (sel d : Node) (v : View) :
  selectedNode v = Some sel →
  id sel ≠ id d →
  closed (graph v) →
  let v1 := onDblClick true sel v in
  let v2 := onClick true d v1 in
  selectedNode v1 = Some sel
  ∧ selectedNode v2 = None
  ∧ links (graph v2)
    = links (graph v1) ++ [ {| addr := fresh (links (graph v1));
                               source := Str (id sel);
                               target := Str (id d) |} ]
  ∧ (id sel ∉ (id <$> nodes (graph v2)))
  ∧ ¬ closed (graph v2).
Proof.
  intros Hsel Hne Hclosed v1 v2.
  destruct (onDblClick_closed sel v Hclosed) as (Hn1 & Hnot & Hl1 & Hc1 & Hs1).
  fold v1 in Hn1, Hnot, Hl1, Hc1, Hs1.
  assert (selectedNode v1 = Some sel) as Hsel1 by congruence.
  pose proof (closed_resolved _ Hc1) as Hres1.
  assert (list_find (joins sel d) (links (graph v1)) = None) as Hfind.
  { apply list_find_None. rewrite Hl1. apply Forall_forall.
    intros l [[Hs Ht] Hl]%list_elem_of_filter.
    destruct (proj1 (Forall_forall _ _) Hclosed l Hl) as (s & t & Hsrc & Htgt & _).
    rewrite Hsrc in Hs. rewrite Htgt in Ht. cbn [end_key] in Hs, Ht.
    unfold joins. rewrite Hsrc, Htgt. cbn [end_id].
    intros [[H1 _] | [_ H2]]; congruence. }
  assert (nodeById (nodes (graph v1)) !! id sel = None) as Hmiss.
  { destruct (nodeById (nodes (graph v1)) !! id sel) as [n|] eqn:Hn; [|done].
    destruct (nodeById_sound _ _ _ Hn) as [Hid Hin].
    exfalso. apply Hnot. apply list_elem_of_fmap. by exists n. }
  assert (v2 = {| graph := {| nodes := nodes (graph v1);
                              links := links (graph v1)
                                ++ [ {| addr := fresh (links (graph v1));
                                        source := Str (id sel);
                                        target := Str (id d) |} ] |};
                  selectedNode := None |}) as ->.
  { subst v2. unfold onClick. rewrite Hsel1, decide_False by done.
    rewrite Hfind. unfold updateGraph. cbn [graph nodes links selectedNode].
    rewrite initialize_app by done.
    cbn [initialize source target addr resolve]. by rewrite Hmiss. }
  cbn [graph nodes links selectedNode].
  split_and!; [done | done | done | done |].
  intros Hc2. unfold closed in Hc2. cbn [links] in Hc2.
  apply Forall_app in Hc2 as [_ Hlast].
  apply Forall_singleton in Hlast as (s & t & Hsrc & _). discriminate Hsrc.
Qed.

Lemma delete_selected_then_link_witness :
  closed (graph pending_view)
  ∧ links (graph (onClick true node_b (onDblClick true node_a pending_view)))
    = [ {| addr := 1; source := Str "n1"; target := Str "n2" |} ].
Proof.
  assert (closed (graph pending_view)) as H.
  { apply Forall_singleton. exists node_a, node_b.
    split_and!; [reflexivity | reflexivity | |].
    - apply elem_of_cons. by left.
    - apply elem_of_cons. right. apply elem_of_cons. by left. }
  split; [exact H|].
  assert (id node_a ≠ id node_b) as Hne by discriminate.
  destruct (delete_selected_then_link node_a node_b pending_view eq_refl Hne H)
    as (_ & _ & Hl & _).
  exact Hl.
Defined.

Lemma named_node (ns : list Node) (k : string) :
  k ∈ id <$> ns → ∃ n, n ∈ ns ∧ id n = k.
Proof. intros (n & -> & Hn)%list_elem_of_fmap. by exists n. Qed.

Lemma closed_grown (g : Graph) (n : Node) :
  closed g → closed {| nodes := nodes g ++ [n]; links := links g |}.
Proof.
  intros Hclosed. rewrite <- (graph_eta g) in Hclosed.
  eapply closed_sub; [| |exact Hclosed]; [|done].
  intros k Hk. rewrite fmap_app. apply elem_of_app. by left.
Qed.

(** X10. Editing keeps the graph without broken edges: a click on a node of
    the graph, with or without shift, when the selected node (if any) is a
    node of the graph, and the two add-node buttons, which append one node
    and leave the links alone, or do nothing when the name is cancelled or
    empty. *)
Theorem editing_keeps_closed (v : View) :
  closed (graph v) →
  (∀ shiftKey d,
     (∀ sel, selectedNode v = Some sel → id sel ∈ (id <$> nodes (graph v))) →
     id d ∈ (id <$> nodes (graph v)) →
     closed (graph (onClick shiftKey d v)))
  ∧ (∀ nodeName millis,
       closed (graph (addNode nodeName millis v))
       ∧ links (graph (addNode nodeName millis v)) = links (graph v)
       ∧ (no_text nodeName = true → addNode nodeName millis v = v)
       ∧ (∀ nm, nodeName = Some nm → no_text nodeName = false →
          nodes (graph (addNode nodeName millis v))
            = nodes (graph v) ++ [ {| id := "n" +:+ pretty millis;
                                      name := nm; color := None |} ]))
  ∧ (∀ nodeName answer millis,
       closed (graph (addColoredNode nodeName answer millis v))
       ∧ links (graph (addColoredNode nodeName answer millis v)) = links (graph v)
       ∧ (no_text nodeName = true → addColoredNode nodeName answer millis v = v)
       ∧ (∀ nm, nodeName = Some nm → no_text nodeName = false →
          ∃ c, nodes (graph (addColoredNode nodeName answer millis v))
                 = nodes (graph v) ++ [ {| id := "n" +:+ pretty millis;
                                           name := nm; color := Some c |} ]
               ∧ c ≠ ""
               ∧ (no_text answer = true → c = "#2ecc71")
               ∧ (no_text answer = false → answer = Some c))).
Proof.
  intros Hclosed. pose proof (closed_resolved _ Hclosed) as Hres.
  split_and!.
  - intros shiftKey d Hsel Hd. unfold onClick.
    destruct shiftKey; [|done].
    destruct (selectedNode v) as [sel|] eqn:Hs; [|done].
    case_decide; [done|].
    specialize (Hsel sel eq_refl).
    unfold updateGraph. cbn [graph nodes links selectedNode].
    destruct (list_find (joins sel d) (links (graph v))) as [[i e]|].
    + set (keep := filter _ (links (graph v))).
      assert (∀ l, l ∈ keep → l ∈ links (graph v)) as Hsub
        by (by intros l [_ Hl]%list_elem_of_filter).
      rewrite initialize_resolved.
      * eapply closed_sub; [| exact Hsub | by rewrite graph_eta]. done.
      * apply Forall_forall. intros l Hl%Hsub.
        by eapply Forall_forall in Hres.
    + rewrite initialize_app by done.
      destruct (initialize_pushed (nodes (graph v)) (fresh (links (graph v)))
                  (id sel) (id d)) as (e' & -> & _ & _ & _ & Hobj).
      destruct Hobj as (s & t & -> & Hids & Hidt & Hsin & Htin);
        [by apply named_node..|].
      unfold closed. cbn [nodes links]. apply Forall_app. split; [done|].
      apply Forall_singleton. exists s, t.
      split_and!; [done | done | |]; by apply list_elem_of_fmap_2.
  - intros nodeName millis. unfold addNode.
    destruct nodeName as [nm|]; [|by split_and!].
    destruct (no_text (Some nm)) eqn:Hnm; [by split_and!|].
    unfold updateGraph. cbn [graph nodes links selectedNode].
    rewrite initialize_resolved by done.
    split_and!; [by apply closed_grown | done | done |].
    by intros ? [= <-] _.
  - intros nodeName answer millis. unfold addColoredNode.
    destruct nodeName as [nm|]; [|by split_and!].
    destruct (no_text (Some nm)) eqn:Hnm; [by split_and!|].
    unfold updateGraph. cbn [graph nodes links selectedNode].
    rewrite initialize_resolved by done.
    split_and!; [by apply closed_grown | done | done |].
    intros ? [= <-] _. eexists. split; [done|].
    destruct answer as [c|]; [|by split_and!].
    destruct (no_text (Some c)) eqn:Hc; [by split_and!|].
    split_and!; [|done|done].
    cbn [no_text] in Hc. by apply bool_decide_eq_false in Hc.
Qed.

Lemma editing_keeps_closed_witness :
  closed (graph unlinked_view)
  ∧ closed (graph (onClick true node_b (onClick true node_a unlinked_view)))
  ∧ closed (graph (addNode (Some "Degree") 1700000000000%Z unlinked_view)).
Proof.
  assert (closed (graph unlinked_view)) as H0 by constructor.
  assert (id node_a ∈ (id <$> nodes (graph unlinked_view))) as Ha
    by (apply elem_of_cons; by left).
  assert (id node_b ∈ (id <$> nodes (graph unlinked_view))) as Hb
    by (apply elem_of_cons; right; apply elem_of_cons; by left).
  pose proof (proj1 (editing_keeps_closed unlinked_view H0) true node_a
                (λ sel (E : None = Some sel), match E with end)) as H1.
  split; [exact H0|]. split.
  - apply (proj1 (editing_keeps_closed _ (H1 Ha)) true node_b).
    + intros sel [= <-]. exact Ha.
    + exact Hb.
  - exact (proj1 (proj1 (proj2 (editing_keeps_closed unlinked_view H0))
                    (Some "Degree") 1700000000000%Z)).
Defined.

(** *** Loading and saving *)





End GraphFacts.

(** ** Properties of dragging *)

Module DragFacts.
Import QArith Qminmax Drag.
Local Open Scope Q_scope.

Lemma room (size : Z) : (36 <= size)%Z ↔ r <= inject_Z size - r.
Proof. unfold Qle, r, Qminus, Qplus, Qopp, inject_Z. simpl. lia. Qed.

Lemma clamp_low (size : Z) (x : Q) : r <= clamp size x.
Proof. apply Q.le_max_l. Qed.

Lemma clamp_high (size : Z) (x : Q) :
  (36 <= size)%Z → clamp size x <= inject_Z size - r.
Proof.
  intros Hsize%room. apply Q.max_lub; [done|]. apply Q.le_min_l.
Qed.

Lemma clamp_inside (size : Z) (x : Q) :
  r <= x → x <= inject_Z size - r → clamp size x == x.
Proof.
  intros Hlow Hhigh. unfold clamp.
  rewrite (Q.min_r _ _ Hhigh). by apply Q.max_r.
Qed.

Lemma clamp_narrow (size : Z) (x : Q) : (size < 36)%Z → clamp size x == r.
Proof.
  intros Hsize. apply Q.max_l.
  apply (Qle_trans _ (inject_Z size - r)); [apply Q.le_min_l|].
  unfold Qle, r, Qminus, Qplus, Qopp, inject_Z. simpl. lia.
Qed.

(** X12. The position a drag gives a node is never left of or above 18.  In
    a container at least 36 wide (high) it is at most the width (height)
    less 18, and it is the pointer position itself when that lies in this
    range; in a narrower container it is 18 wherever the pointer is. *)
Theorem dragged_within (containerWidth containerHeight : Z) (ex ey : Q) :
  (r <= (dragged containerWidth containerHeight ex ey).1
   ∧ r <= (dragged containerWidth containerHeight ex ey).2)
  ∧ ((36 <= containerWidth)%Z →
     (dragged containerWidth containerHeight ex ey).1 <= inject_Z containerWidth - r
     ∧ (r <= ex → ex <= inject_Z containerWidth - r →
        (dragged containerWidth containerHeight ex ey).1 == ex))
  ∧ ((36 <= containerHeight)%Z →
     (dragged containerWidth containerHeight ex ey).2 <= inject_Z containerHeight - r
     ∧ (r <= ey → ey <= inject_Z containerHeight - r →
        (dragged containerWidth containerHeight ex ey).2 == ey))
  ∧ ((containerWidth < 36)%Z →
     (dragged containerWidth containerHeight ex ey).1 == r)
  ∧ ((containerHeight < 36)%Z →
     (dragged containerWidth containerHeight ex ey).2 == r).
Proof.
  unfold dragged. cbn [fst snd]. split_and!.
  - apply clamp_low.
  - apply clamp_low.
  - intros Hw. split; [by apply clamp_high | apply clamp_inside].
  - intros Hh. split; [by apply clamp_high | apply clamp_inside].
  - apply clamp_narrow.
  - apply clamp_narrow.
Qed.

Lemma dragged_within_witness :
  (36 <= 800)%Z
  ∧ (dragged 800 20 (1000 # 1) (7 # 2)).1 <= inject_Z 800 - r
  ∧ (20 < 36)%Z
  ∧ (dragged 800 20 (1000 # 1) (7 # 2)).2 == r.
Proof.
  assert (36 <= 800)%Z as H1 by lia.
  assert (20 < 36)%Z as H2 by lia.
  pose proof (dragged_within 800 20 (1000 # 1) (7 # 2))
    as (_ & Hw & _ & _ & Hh).
  split; [exact H1|]. split; [exact (proj1 (Hw H1))|].
  split; [exact H2 | exact (Hh H2)].
Defined.

End DragFacts.

(** ** Properties of the kanban board *)

Module KanbanFacts.
Import Kanban.

Lemma issueObjects_reply (l : list (gmap string json)) :
  issueObjects (JArr (JObj <$> l)) = l.
Proof.
  cbn [issueObjects]. induction l as [|x l IH]; [done|].
  rewrite fmap_cons. cbn [omap list_omap]. by rewrite IH.
Qed.

Lemma loadIssues_shows (w : Server) :
  loadIssues w
    = ((renderIssues (issues (store w)), updateIssueCounters (issues (store w))), w).
Proof.
  unfold loadIssues. run. cbn [payload]. by rewrite issueObjects_reply.
Qed.

Lemma renderIssues_snoc (l : list (gmap string json)) (x : gmap string json) :
  renderIssues (l ++ [x]) = appendCard (renderIssues l) x.
Proof. unfold renderIssues. by rewrite foldl_snoc. Qed.

Lemma not_both (issue : gmap string json) (s1 s2 : string) :
  s1 ≠ s2 → status_is s1 issue → ¬ status_is s2 issue.
Proof. unfold status_is. congruence. Qed.

Lemma renderIssues_filters (l : list (gmap string json)) :
  todo_list (renderIssues l) = filter (status_is "todo") l
  ∧ inprogress_list (renderIssues l) = filter (status_is "in-progress") l
  ∧ done_list (renderIssues l)
    = filter (λ i, ¬ status_is "todo" i ∧ ¬ status_is "in-progress" i) l.
Proof.
  induction l as [|x l (IH1 & IH2 & IH3)] using rev_ind; [done|].
  rewrite renderIssues_snoc, !filter_app. unfold appendCard.
  destruct (decide (status_is "todo" x)) as [Ht|Ht].
  - cbn [todo_list inprogress_list done_list].
    assert (¬ status_is "in-progress" x) as Hi by (by apply (not_both _ "todo")).
    rewrite filter_cons_True, (filter_cons_False _ x), (filter_cons_False _ x)
      by tauto.
    rewrite !filter_nil, !app_nil_r. by rewrite IH1.
  - destruct (decide (status_is "in-progress" x)) as [Hi|Hi];
      cbn [todo_list inprogress_list done_list].
    + rewrite (filter_cons_False _ x), filter_cons_True, (filter_cons_False _ x)
        by tauto.
      rewrite !filter_nil, !app_nil_r. by rewrite IH2.
    + rewrite (filter_cons_False _ x), (filter_cons_False _ x), filter_cons_True
        by tauto.
      rewrite !filter_nil, !app_nil_r. by rewrite IH3.
Qed.

(** X13. The board and its counters.  Every issue gets exactly one card: the
    three lists hold the issues of status "todo", of status "in-progress",
    and all the others, each in the order of the list, and together they
    are a rearrangement of the list.  The todo and in-progress counters are
    the lengths of their lists; the done counter counts only the status
    "done", so it falls short of the done list by the number of issues whose
    status is none of the three. *)
Theorem board_and_counters (l : list (gmap string json)) :
  todo_list (renderIssues l) = filter (status_is "todo") l
  ∧ inprogress_list (renderIssues l) = filter (status_is "in-progress") l
  ∧ done_list (renderIssues l)
    = filter (λ i, ¬ status_is "todo" i ∧ ¬ status_is "in-progress" i) l
  ∧ todo_list (renderIssues l)
      ++ inprogress_list (renderIssues l) ++ done_list (renderIssues l) ≡ₚ l
  ∧ todo_counter (updateIssueCounters l) = length (todo_list (renderIssues l))
  ∧ inprogress_counter (updateIssueCounters l)
    = length (inprogress_list (renderIssues l))
  ∧ done_counter (updateIssueCounters l)
      + length (filter (λ i, ¬ status_is "todo" i ∧ ¬ status_is "in-progress" i
                             ∧ ¬ status_is "done" i) l)
    = length (done_list (renderIssues l)).
Proof.
  destruct (renderIssues_filters l) as (-> & -> & ->).
  cbn [updateIssueCounters todo_counter inprogress_counter done_counter].
  split_and!; [done | done | done | | done | done |].
  - induction l as [|x l IH]; [done|]. rewrite !filter_cons.
    destruct (decide (status_is "todo" x)) as [Ht|Ht].
    + assert (¬ status_is "in-progress" x) as Hi by (by apply (not_both _ "todo")).
      rewrite decide_False by done. rewrite decide_False by tauto.
      cbn [app]. by rewrite IH.
    + destruct (decide (status_is "in-progress" x)) as [Hi|Hi].
      * rewrite decide_False by tauto. cbn [app].
        rewrite <- Permutation_middle. by rewrite IH.
      * rewrite decide_True by tauto.
        rewrite app_assoc, <- Permutation_middle, <- app_assoc. by rewrite IH.
  - induction l as [|x l IH]; [done|]. rewrite !filter_cons.
    destruct (decide (status_is "done" x)) as [Hd|Hd].
    + assert (¬ status_is "todo" x) by (by apply (not_both _ "done")).
      assert (¬ status_is "in-progress" x) by (by apply (not_both _ "done")).
      rewrite decide_False by tauto. rewrite decide_True by tauto.
      cbn [length]. lia.
    + destruct (decide (status_is "todo" x)) as [Ht|Ht].
      * rewrite decide_False by tauto. rewrite decide_False by tauto. done.
      * destruct (decide (status_is "in-progress" x)) as [Hi|Hi].
        -- rewrite decide_False by tauto. rewrite decide_False by tauto. done.
        -- rewrite decide_True by tauto. rewrite decide_True by tauto.
           cbn [length]. lia.
Qed.

Lemma assign_status (issue : gmap string json) (v : json) :
  assign issue (BodyObject {[ "status" := v ]}) = <["status" := v]> issue.
Proof.
  unfold assign. cbn [ownProps]. rewrite insert_union_singleton_l.
  case_decide; [done|]. by rewrite delete_singleton_ne.
Qed.

Lemma kanbanDrop_found (w : Server) newStatus issueId k issue :
  list_find (has_issueId issueId) (issues (store w)) = Some (k, issue) →
  kanbanDrop newStatus issueId w
    = loadIssues (after (put_api_issues_issueId issueId
                           (BodyObject {[ "status" := JStr newStatus ]})) w)
  ∧ issues (store (after (put_api_issues_issueId issueId
                            (BodyObject {[ "status" := JStr newStatus ]})) w))
    = <[k := <["status" := JStr newStatus]> issue]> (issues (store w)).
Proof.
  intros Hfind. unfold kanbanDrop, after.
  cbv [mbind handler_bind].
  rewrite (put_found _ _ _ _ _ Hfind). cbn [snd store issues].
  by rewrite assign_status.
Qed.

(** X14. Dropping a card on a column.  For an id as the server makes them,
    when some issue has the id the first such issue gets the status of the
    column and keeps every other member, no other issue changes, and the
    board then shown is that of the updated list, with the moved issue in
    the list of the column it was dropped on.  When no issue has the id
    (the card was stale) the server is unchanged and the board shown is
    that of the list as it is. *)
Theorem drop_moves_card (w : Server) (millis : Z) (newStatus : string) :
  (∀ k issue,
     list_find (has_issueId ("issue_" +:+ pretty millis)) (issues (store w))
       = Some (k, issue) →
     issues (store (after (kanbanDrop newStatus ("issue_" +:+ pretty millis)) w))
       = <[k := <["status" := JStr newStatus]> issue]> (issues (store w))
     ∧ reply (kanbanDrop newStatus ("issue_" +:+ pretty millis)) w
       = (renderIssues (<[k := <["status" := JStr newStatus]> issue]>
                          (issues (store w))),
          updateIssueCounters (<[k := <["status" := JStr newStatus]> issue]>
                                 (issues (store w))))
     ∧ (∀ key, key ≠ "status" →
               (<["status" := JStr newStatus]> issue) !! key = issue !! key)
     ∧ (newStatus = "todo" →
        <["status" := JStr newStatus]> issue
          ∈ todo_list (reply (kanbanDrop newStatus ("issue_" +:+ pretty millis)) w).1)
     ∧ (newStatus = "in-progress" →
        <["status" := JStr newStatus]> issue
          ∈ inprogress_list
              (reply (kanbanDrop newStatus ("issue_" +:+ pretty millis)) w).1)
     ∧ (newStatus = "done" →
        <["status" := JStr newStatus]> issue
          ∈ done_list (reply (kanbanDrop newStatus ("issue_" +:+ pretty millis)) w).1))
  ∧ (Forall (λ i, ¬ has_issueId ("issue_" +:+ pretty millis) i) (issues (store w)) →
     kanbanDrop newStatus ("issue_" +:+ pretty millis) w
       = ((renderIssues (issues (store w)), updateIssueCounters (issues (store w))),
          w)).
Proof.
  split.
  - intros k issue Hfind.
    destruct (kanbanDrop_found w newStatus _ k issue Hfind) as [Hdrop Hissues].
    unfold after, reply. rewrite Hdrop, loadIssues_shows. cbn [fst snd].
    rewrite Hissues.
    assert (<["status" := JStr newStatus]> issue
            ∈ <[k := <["status" := JStr newStatus]> issue]> (issues (store w)))
      as Hin.
    { apply list_elem_of_lookup. exists k. apply list_lookup_insert_eq.
      apply list_find_Some in Hfind as (Hk & _). by eapply lookup_lt_Some. }
    assert (status_is newStatus (<["status" := JStr newStatus]> issue)) as Hst.
    { unfold status_is. by rewrite lookup_insert_eq. }
    destruct (renderIssues_filters
                (<[k := <["status" := JStr newStatus]> issue]> (issues (store w))))
      as (-> & -> & ->).
    split_and!; [done | done | | | |].
    + intros key Hkey. by rewrite lookup_insert_ne.
    + intros ->. by apply list_elem_of_filter.
    + intros ->. by apply list_elem_of_filter.
    + intros ->. apply list_elem_of_filter. split; [|done].
      split; by apply (not_both _ "done").
  - intros Hnone. unfold kanbanDrop. cbv [mbind handler_bind].
    rewrite (put_missing _ _ _ Hnone). apply loadIssues_shows.
Qed.

Lemma drop_moves_card_witness :
  list_find (has_issueId ("issue_" +:+ pretty 1700000000000%Z))
    (issues (store one_todo)) = Some (0, newIssue noon (BodyObject ∅))
  ∧ <["status" := JStr "done"]> (newIssue noon (BodyObject ∅))
      ∈ done_list (reply (kanbanDrop "done" ("issue_" +:+ pretty 1700000000000%Z))
                     one_todo).1
  ∧ Forall (λ i, ¬ has_issueId ("issue_" +:+ pretty 7%Z) i) (issues (store one_todo))
  ∧ after (kanbanDrop "done" ("issue_" +:+ pretty 7%Z)) one_todo = one_todo.
Proof.
  assert (list_find (has_issueId ("issue_" +:+ pretty 1700000000000%Z))
            (issues (store one_todo)) = Some (0, newIssue noon (BodyObject ∅)))
    as Hfound by (vm_compute; reflexivity).
  assert (Forall (λ i, ¬ has_issueId ("issue_" +:+ pretty 7%Z) i)
            (issues (store one_todo))) as Hnone.
  { apply absent_find. vm_compute. reflexivity. }
  split; [exact Hfound|]. split.
  - destruct (proj1 (drop_moves_card one_todo 1700000000000 "done") 0 _ Hfound)
      as (_ & _ & _ & _ & _ & Hdone).
    exact (Hdone eq_refl).
  - split; [exact Hnone|].
    unfold after.
    rewrite (proj2 (drop_moves_card one_todo 7 "done") Hnone). reflexivity.
Defined.

(** X15. Creating an issue from a column.  Without a title (prompt cancelled
    or left empty) nothing is sent and the server is unchanged.  With a
    title, from a column of non-empty status, the issue the server appends
    has that title, that status, the description entered, or "" when the
    description prompt was cancelled or left empty, and an id made of the
    clock; the board then shown is that of the new list. *)
Theorem create_from_column
    (w : Server) (defaultStatus : string) (title description : option string)
    (clk : Clock) :
  (Client.no_text title = true →
   createIssuePrompt defaultStatus title description clk w = (None, w))
  ∧ (∀ t, title = Some t → Client.no_text title = false → defaultStatus ≠ "" →
     let created : gmap string json :=
       <["issueId" := JStr ("issue_" +:+ pretty (now clk))]>
       (<["title" := JStr t]>
       (<["description" :=
            JStr (if Client.no_text description then "" else default "" description)]>
        {[ "status" := JStr defaultStatus ]})) in
     issues (store (after (createIssuePrompt defaultStatus title description clk) w))
       = issues (store w) ++ [created]
     ∧ reply (createIssuePrompt defaultStatus title description clk) w
       = Some (renderIssues (issues (store w) ++ [created]),
               updateIssueCounters (issues (store w) ++ [created]))).
Proof.
  split.
  - intros Hno. unfold createIssuePrompt. destruct title as [t|]; [|done].
    by rewrite Hno.
  - intros t -> Hno Hst created. subst created.
    unfold createIssuePrompt. rewrite Hno.
    unfold after, reply. cbv [mbind handler_bind].
    rewrite create_issue, loadIssues_shows. cbv [mret handler_ret].
    cbn [fst snd store issues].
    set (made := newIssue clk _).
    assert (made = <["issueId" := JStr ("issue_" +:+ pretty (now clk))]>
                   (<["title" := JStr t]>
                   (<["description" :=
                        JStr (if Client.no_text description then ""
                              else default "" description)]>
                    {[ "status" := JStr defaultStatus ]}))) as ->; [|done].
    subst made. unfold newIssue. cbn [prop].
    rewrite lookup_insert_eq.
    rewrite lookup_insert_ne, lookup_insert_eq by done.
    do 2 (rewrite lookup_insert_ne by done). rewrite lookup_singleton_eq.
    assert (t ≠ "") as Ht.
    { cbn [Client.no_text] in Hno. by apply bool_decide_eq_false in Hno. }
    assert (or_else (Some (JStr t)) (JStr "Untitled") = JStr t) as ->.
    { apply or_else_truthy. cbn [truthy]. by apply negb_true_iff, String.eqb_neq. }
    assert (or_else (Some (JStr defaultStatus)) (JStr "todo") = JStr defaultStatus)
      as ->.
    { apply or_else_truthy. cbn [truthy]. by apply negb_true_iff, String.eqb_neq. }
    do 3 f_equal.
    destruct description as [d|]; cbn [Client.no_text default].
    + case_bool_decide as Hd.
      * subst d. done.
      * apply or_else_truthy. cbn [truthy].
        by apply negb_true_iff, String.eqb_neq.
    + done.
Qed.

Lemma create_from_column_witness :
  Client.no_text (Some "Fix bug") = false
  ∧ issues (store (after (createIssuePrompt "in-progress" (Some "Fix bug") None noon)
                     fresh_server))
    = [ <["issueId" := JStr "issue_1700000000000"]>
        (<["title" := JStr "Fix bug"]>
        (<["description" := JStr ""]> {[ "status" := JStr "in-progress" ]})) ]
  ∧ Client.no_text (Some "") = true
  ∧ createIssuePrompt "todo" (Some "") None noon fresh_server = (None, fresh_server).
Proof.
  assert ("in-progress" ≠ "") as Hst by discriminate.
  split; [reflexivity|]. split.
  - exact (proj1 (proj2 (create_from_column fresh_server "in-progress"
                           (Some "Fix bug") None noon)
                    "Fix bug" eq_refl eq_refl Hst)).
  - split; [reflexivity|].
    exact (proj1 (create_from_column fresh_server "todo" (Some "") None noon)
             eq_refl).
Defined.

(** X18. Deleting a card.  Without confirmation nothing is sent.  With it,
    for an id as the server makes them: when some issue has the id the
    first such issue is removed and the board is shown again from the list
    that remains; when none has it the server is unchanged and the board is
    not rendered again. *)
Theorem delete_card (w : Server) (millis : Z) :
  deleteIssue false ("issue_" +:+ pretty millis) w = (None, w)
  ∧ (∀ index x,
       list_find (has_issueId ("issue_" +:+ pretty millis)) (issues (store w))
         = Some (index, x) →
       issues (store (after (deleteIssue true ("issue_" +:+ pretty millis)) w))
         = take index (issues (store w)) ++ drop (S index) (issues (store w))
       ∧ reply (deleteIssue true ("issue_" +:+ pretty millis)) w
         = Some (renderIssues (take index (issues (store w))
                               ++ drop (S index) (issues (store w))),
                 updateIssueCounters (take index (issues (store w))
                                      ++ drop (S index) (issues (store w)))))
  ∧ (Forall (λ i, ¬ has_issueId ("issue_" +:+ pretty millis) i) (issues (store w)) →
     deleteIssue true ("issue_" +:+ pretty millis) w = (None, w)).
Proof.
  split_and!; [done | |].
  - intros index x Hfind. unfold deleteIssue, after, reply.
    cbv [mbind handler_bind]. rewrite (delete_found _ _ _ _ Hfind).
    cbn [payload]. rewrite lookup_insert_eq. cbn [truthy].
    rewrite loadIssues_shows. cbv [mret handler_ret].
    by cbn [fst snd store issues].
  - intros Hnone. unfold deleteIssue. cbv [mbind handler_bind].
    rewrite (delete_missing _ _ Hnone). unfold not_found. cbn [payload].
    by rewrite lookup_singleton_ne.
Qed.

Lemma delete_card_witness :
  list_find (has_issueId ("issue_" +:+ pretty 1700000000000%Z))
    (issues (store two_todos)) = Some (0, newIssue noon (BodyObject ∅))
  ∧ issues (store (after (deleteIssue true ("issue_" +:+ pretty 1700000000000%Z))
                     two_todos))
    = [newIssue noon (BodyObject ∅)]
  ∧ Forall (λ i, ¬ has_issueId ("issue_" +:+ pretty 7%Z) i) (issues (store two_todos))
  ∧ deleteIssue true ("issue_" +:+ pretty 7%Z) two_todos = (None, two_todos).
Proof.
  assert (list_find (has_issueId ("issue_" +:+ pretty 1700000000000%Z))
            (issues (store two_todos)) = Some (0, newIssue noon (BodyObject ∅)))
    as Hfound by (vm_compute; reflexivity).
  assert (Forall (λ i, ¬ has_issueId ("issue_" +:+ pretty 7%Z) i)
            (issues (store two_todos))) as Hnone.
  { apply absent_find. vm_compute. reflexivity. }
  split; [exact Hfound|]. split.
  - exact (proj1 (proj1 (proj2 (delete_card two_todos 1700000000000)) 0 _ Hfound)).
  - split; [exact Hnone|].
    exact (proj2 (proj2 (delete_card two_todos 7)) Hnone).
Defined.

End KanbanFacts.

(** ** Properties of the replies and of the editor *)

Module EditorFacts.
Import Editor.

Lemma version_json_members (v : Version) :
  ∃ m, version_json v = JObj m
       ∧ m !! "content" = content v
       ∧ m !! "timestamp" = Some (JStr (timestamp v)).
Proof.
  eexists. split; [done|]. unfold member.
  destruct (content v) as [c|].
  - split; [by rewrite lookup_insert_eq|].
    rewrite lookup_insert_ne by done. by rewrite lookup_singleton_eq.
  - split; [by rewrite lookup_singleton_ne|]. by rewrite lookup_singleton_eq.
Qed.

#[local] Instance version_json_inj : Inj (=) (=) version_json.
Proof.
  intros v1 v2 Heq.
  destruct (version_json_members v1) as (m1 & H1 & Hc1 & Ht1).
  destruct (version_json_members v2) as (m2 & H2 & Hc2 & Ht2).
  rewrite H1, H2 in Heq.
  assert (m1 = m2) as <-.
  { by apply (f_equal (λ x, match x with JObj m => m | _ => ∅ end)) in Heq. }
  destruct v1, v2. cbn in *. congruence.
Qed.




Lemma versionAt_last (d : Document) :
  well_versioned d → versionAt d = last (versions d).
Proof.
  intros [Hne Hcur]. unfold versionAt. rewrite Hcur.
  destruct (versions d) as [|v vs] eqn:Hvs; [done|].
  rewrite last_lookup. cbn [length pred].
  replace (Z.of_nat (S (length vs)) - 1)%Z with (Z.of_nat (length vs)) by lia.
  rewrite Nat2Z.id.
  by rewrite (proj2 (Z.leb_le 0 (Z.of_nat (length vs)))) by lia.
Qed.

Lemma editorValue_commit (clk : Clock) (body : Body) (d : Document) :
  editorValue (commit clk body d) = prop body "content".
Proof.
  unfold editorValue, versionAt, commit. cbn [currentVersion versions].
  rewrite length_app. cbn [length].
  replace (Z.of_nat (length (versions d) + 1) - 1)%Z
    with (Z.of_nat (length (versions d))) by lia.
  rewrite Nat2Z.id.
  rewrite (proj2 (Z.leb_le 0 (Z.of_nat (length (versions d))))) by lia.
  by rewrite list_lookup_middle.
Qed.

(** X17. What the editor shows.  On a server whose documents were well
    versioned at some point, after any requests, fetching a stored document
    by its id and taking [versions[currentVersion]] gives its newest
    version, whose content the editor then holds.  And after a commit, be
    the document well versioned or not, the document of the reply, which a
    following GET returns too, shows the content just committed. *)
Theorem editor_shows_newest (rs : list Request) (w : Server) :
  Forall well_versioned (documents (store w)) →
  (∀ param i d,
     list_find (has_docId param) (documents (store (serve rs w))) = Some (i, d) →
     reply (get_api_documents_docId param) (serve rs w)
       = {| status := 200; payload := document_json d |}
     ∧ ∃ v, last (versions d) = Some v
            ∧ versionAt d = Some v
            ∧ editorValue d = content v)
  ∧ (∀ param clk body i d,
       list_find (has_docId param) (documents (store (serve rs w))) = Some (i, d) →
       reply (post_api_documents_docId_commit param clk body) (serve rs w)
         = {| status := 200; payload := document_json (commit clk body d) |}
       ∧ reply (get_api_documents_docId param)
           (after (post_api_documents_docId_commit param clk body) (serve rs w))
         = {| status := 200; payload := document_json (commit clk body d) |}
       ∧ editorValue (commit clk body d) = prop body "content").
Proof.
  intros Hinv%(well_versioned_kept rs). split.
  - intros param i d Hfind. split; [run; by rewrite Hfind|].
    apply list_find_Some in Hfind as (Hi & _).
    pose proof (Forall_lookup_1 _ _ _ _ Hinv Hi) as Hd.
    pose proof (versionAt_last d Hd) as Hat.
    destruct (last (versions d)) as [v|] eqn:Hlast.
    + exists v. split_and!; [done | done |]. unfold editorValue. by rewrite Hat.
    + destruct Hd as [Hne _]. by apply last_None in Hlast.
  - intros param clk body i d Hfind.
    unfold reply, after. rewrite (commit_found _ _ _ _ _ _ Hfind). cbn [fst snd].
    split_and!; [done | | apply editorValue_commit].
    run. by rewrite (find_replaced _ _ _ _ (commit clk body d) Hfind eq_refl).
Qed.

Lemma editor_shows_newest_witness :
  Forall well_versioned (documents (store fresh_server))
  ∧ ∃ v, versionAt (commit later (text "second") (newDoc noon (note "Plan" "draft")))
           = Some v
         ∧ editorValue (commit later (text "second") (newDoc noon (note "Plan" "draft")))
           = content v.
Proof.
  assert (Forall well_versioned (documents (store fresh_server))) as H
    by constructor.
  split; [exact H|].
  destruct (proj1 (editor_shows_newest
                     [ PostDocument noon (note "Plan" "draft");
                       PostCommit "doc_1700000000000" later (text "second") ]
                     fresh_server H)
              "doc_1700000000000" 0
              (commit later (text "second") (newDoc noon (note "Plan" "draft"))))
    as (_ & v & _ & Hat & Hval).
  - vm_compute. reflexivity.
  - exists v. split; [exact Hat | exact Hval].
Defined.

End EditorFacts.
